(** * w3af audit plugin [csrf]: a shallow embedding of plugins/audit/csrf.py

    The plugin decides, for one recorded request/response pair, whether the
    endpoint lacks a working Referer check and a working anti-CSRF token.
    This file embeds the plugin's methods and proves properties of them.

    Conventions of the embedding.
    - Python [str] values are [string]s of bytes; [isdigit], [islower] and
      [isupper] are the byte-string versions (the ranges 0-9, a-z, A-Z).
    - A Python exception is the [Raise] outcome of [result].
    - Methods that log, send requests or report to the knowledge base run in
      the monad [M]: they produce the list of events they performed, in
      order, and an outcome. *)

From Stdlib Require Import ZArith QArith Ascii String Reals Lra.
From stdpp Require Import gmap strings list fin_maps.

Local Open Scope string_scope.
Local Open Scope list_scope.

(** ** Exceptions and outcomes *)

Inductive exn : Type :=
| ValueError (msg : string)          (* raised by math.log on 0 *)
| SendError (msg : string).          (* raised by the url opener *)

Inductive result (A : Type) : Type :=
| Ok (a : A)
| Raise (e : exn).
Arguments Ok {A} a.
Arguments Raise {A} e.

(** ** The entropy token classifier *)

Definition COMMON_CSRF_NAMES : list string :=
  [ "csrf_token"; "token"; "csrf" ].

(** [i.isdigit()], [i.islower()], [i.isupper()] for one byte. *)
Definition isdigit (i : ascii) : bool :=
  let n := nat_of_ascii i in (48 <=? n)%nat && (n <=? 57)%nat.
Definition islower (i : ascii) : bool :=
  let n := nat_of_ascii i in (97 <=? n)%nat && (n <=? 122)%nat.
Definition isupper (i : ascii) : bool :=
  let n := nat_of_ascii i in (65 <=? n)%nat && (n <=? 90)%nat.
Definition is_space (i : ascii) : bool :=
  bool_decide (i = " "%char).

(** The four flags the character loop of [is_csrf_token] maintains. *)
Record char_flags : Type := CharFlags {
  total_digit : bool;
  total_lower : bool;
  total_upper : bool;
  total_spaces : bool
}.

Definition no_flags : char_flags := CharFlags false false false false.

(** One iteration of [for i in value]: the first test that succeeds sets its
    flag and [continue]s. *)
Definition scan_char (i : ascii) (f : char_flags) : char_flags :=
  if isdigit i then CharFlags true (total_lower f) (total_upper f) (total_spaces f)
  else if islower i then CharFlags (total_digit f) true (total_upper f) (total_spaces f)
  else if isupper i then CharFlags (total_digit f) (total_lower f) true (total_spaces f)
  else if is_space i then CharFlags (total_digit f) (total_lower f) (total_upper f) true
  else f.

Fixpoint scan_chars (value : string) (f : char_flags) : char_flags :=
  match value with
  | EmptyString => f
  | String i rest => scan_chars rest (scan_char i f)
  end.

(** [int(total_digit) * 10 + int(total_upper) * 26 + int(total_lower) * 26] *)
Definition alphabet (f : char_flags) : Z :=
  (Z.b2z (total_digit f) * 10 + Z.b2z (total_upper f) * 26
   + Z.b2z (total_lower f) * 26)%Z.

(** [floor(log(total) * (len(value) / log(2)))].

    [math.log] raises [ValueError] ("math domain error") on 0.  For a
    positive [total] the value of the expression is the floor of
    [len * log2 total], that is the binary logarithm of [total ^ len]
    rounded down, which is what the model computes ([entropy_bits_real]
    below relates the two over the reals).  The source evaluates the
    expression in double precision; [entropy_margin] shows that for each
    alphabet the loop can produce, [total ^ len] is never within a factor
    9/8 of [2 ^ 36], so rounding cannot change the outcome of the
    comparison with [min_entropy]. *)
Definition entropy_bits (total : Z) (len : nat) : result Z :=
  if (total <=? 0)%Z then Raise (ValueError "math domain error")
  else Ok (Z.log2 (total ^ Z.of_nat len)).

Definition min_length : nat := 4.
Definition min_entropy : Z := 36.

Definition is_csrf_token (key value : string) : result bool :=
  (* Check for common CSRF token names *)
  if bool_decide (key ∈ COMMON_CSRF_NAMES) && negb (String.eqb value "")
  then Ok true
  (* Check length *)
  else if (String.length value <? min_length)%nat then Ok false
  else
    (* Calculate entropy *)
    let f := scan_chars value no_flags in
    let total := alphabet f in
    match entropy_bits total (String.length value) with
    | Raise e => Raise e
    | Ok entropy =>
        if (min_entropy <=? entropy)%Z
        then (if negb (total_spaces f) && total_digit f then Ok true else Ok false)
        else Ok false
    end.

(** ** Data model *)

(** A cookie of the opener's jar; only [cookie.domain] is read. *)
Record Cookie : Type := { cookie_domain : string }.

(** The parameter collection: an ordered dictionary from a parameter name to
    the sequence of its values, kept as the list of its items in insertion
    order.  A dictionary holds every name once; statements that depend on
    it assume [NoDup] of the names. *)
Definition DataContainer : Type := list (string * list string).

(** What the plugin reads of a fuzzable request. *)
Record FuzzableRequest : Type := {
  get_method : string;
  get_url : string;             (* the text of [freq.get_url()] *)
  get_domain : string;          (* [freq.get_url().get_domain()] *)
  has_query_string : bool;      (* [freq.get_uri().has_query_string()] *)
  get_referer : string;
  get_dc : DataContainer
}.

Record HTTPResponse : Type := {
  get_code : Z;
  body : string;
  response_id : Z               (* [response.id] *)
}.

(** core.data.constants.severity *)
Inductive severity : Type := INFORMATION | LOW | MEDIUM | HIGH.

(** The value [Vuln.from_fr(name, desc, severity, response_ids, plugin_name,
    freq)] builds. *)
Record Vuln : Type := {
  vuln_name : string;
  vuln_desc : string;
  vuln_severity : severity;
  vuln_response_id : Z;
  vuln_plugin_name : string;
  vuln_freq : FuzzableRequest
}.

Definition from_fr (name desc : string) (sev : severity) (response_ids : Z)
    (plugin_name : string) (freq : FuzzableRequest) : Vuln :=
  {| vuln_name := name; vuln_desc := desc; vuln_severity := sev;
     vuln_response_id := response_ids; vuln_plugin_name := plugin_name;
     vuln_freq := freq |}.

(** A mutant: a copy of a request together with the one place that is
    modified, the value found there and the value put there. *)
Inductive mutant_class : Type := HeadersMutant | DcMutant.

Record Mutant : Type := {
  mutant_kind : mutant_class;
  mutant_freq : FuzzableRequest;
  mutant_var : string;
  mutant_index : nat;
  mutant_original_value : string;
  mutant_mod_value : string
}.



(** The plugin object: the two attributes [__init__] sets. *)
Record csrf : Type := {
  _strict_mode : bool;
  _equal_limit : Q
}.

Definition __init__ : csrf :=
  {| _strict_mode := false; _equal_limit := (95 # 100)%Q |}.

(** ** Events and the monad of the plugin's methods *)

Inductive event : Type :=
| Debug (msg : string)                              (* om.out.debug *)
| SendMutant (m : Mutant) (analyze : option bool)   (* _uri_opener.send_mutant *)
| KbAppendUniq (location_b : string) (v : Vuln).    (* self.kb_append_uniq(self, _, _) *)

Definition M (A : Type) : Type := (list event * result A)%type.

Definition ret {A} (a : A) : M A := ([], Ok a).

Definition bind {A B} (c : M A) (k : A → M B) : M B :=
  match c with
  | (evs, Ok a) => let '(evs', r) := k a in (evs ++ evs', r)
  | (evs, Raise e) => (evs, Raise e)
  end.

Notation "'do' x <- c1 ; c2" := (bind c1 (λ x, c2))
  (at level 10, x name, c1 at level 100, c2 at level 200,
   format "'[v' 'do'  x  <-  c1 ; '/' c2 ']'").

Definition emit (ev : event) : M unit := ([ev], Ok tt).
Definition debug (msg : string) : M unit := emit (Debug msg).
Definition lift {A} (r : result A) : M A := ([], r).

(** The findings a run reported to the knowledge base. *)
Definition findings (evs : list event) : list Vuln :=
  omap (λ ev, match ev with KbAppendUniq _ v => Some v | _ => None end) evs.

(** The mutants a run sent. *)
Definition sent (evs : list event) : list (Mutant * option bool) :=
  omap (λ ev, match ev with SendMutant m a => Some (m, a) | _ => None end) evs.

(** ** Collaborators

    The parts of the framework the plugin calls and that are not part of
    the plugin.  [send_mutant] answers with a response or raises; an audit
    sends each mutant it builds once, so the answer is given as a function
    of the mutant.  [analyze] is [None] where the call leaves the argument
    to its default. *)
Record Env : Type := {
  relative_distance_boolean : string → string → Q → bool;
  get_cookies : list Cookie;
  send_mutant : Mutant → option bool → result HTTPResponse;
  create_mutants :
    FuzzableRequest → list string → bool → list string → list Mutant;
  get_name : string
}.

(** [a in b] for strings. *)
Fixpoint str_in (a b : string) : bool :=
  String.prefix a b ||
  match b with
  | EmptyString => false
  | String _ b' => str_in a b'
  end.

(** [enumerate(l)], counting from [n]. *)
Fixpoint enumerate_from {A} (n : nat) (l : list A) : list (nat * A) :=
  match l with
  | [] => []
  | x :: l' => (n, x) :: enumerate_from (S n) l'
  end.
Definition enumerate {A} (l : list A) : list (nat * A) := enumerate_from 0 l.

(** [token.keys()]: the names, in the order of the dictionary. *)
Definition keys (token : gmap string (gmap nat string)) : list string :=
  (map_to_list token).*1.

Section Plugin.
Variable E : Env.
Variable self : csrf.

Definition send (m : Mutant) (analyze : option bool) : M HTTPResponse :=
  ([SendMutant m analyze], send_mutant E m analyze).

Definition _is_resp_equal (res1 res2 : HTTPResponse) : bool :=
  if negb (get_code res1 =? get_code res2)%Z then false
  else if negb (relative_distance_boolean E (body res1) (body res2)
                  (_equal_limit self)) then false
  else true.

(** The [for cookie ... break ... else: return False] loop leaves through
    [else] exactly when no cookie passes the test. *)
Definition _is_suitable (freq : FuzzableRequest) : M bool :=
  if negb (existsb (λ cookie, str_in (get_domain freq) (cookie_domain cookie))
                   (get_cookies E))
  then ret false
  (* Strict mode on/off *)
  else if String.eqb (get_method freq) "GET" && _strict_mode self
  then ret false
  (* Payload? *)
  else if negb (has_query_string freq)
          && negb (bool_decide (get_dc freq ≠ []))
  then ret false
  else
    do _ <- debug (get_url freq +:+ " is suitable for CSRF attack");
    ret true.

Definition referer_mutant (freq : FuzzableRequest) (fake_ref : string)
    : Mutant :=
  {| mutant_kind := HeadersMutant;
     mutant_freq := freq;
     mutant_var := "Referer";
     mutant_index := 0;
     mutant_original_value := get_referer freq;
     mutant_mod_value := fake_ref |}.

Definition _is_origin_checked (freq : FuzzableRequest)
    (orig_response : HTTPResponse) : M bool :=
  let fake_ref := "http://www.w3af.org/" in
  let mutant := referer_mutant freq fake_ref in
  do mutant_response <- send mutant None;
  if negb (_is_resp_equal orig_response mutant_response) then ret true
  else ret false.

(** The inner loop of [_find_csrf_token], over
    [enumerate(dc[param_name])]: the first accepted element is recorded
    and the loop is left. *)
Fixpoint find_in_elements (freq : FuzzableRequest) (param_name : string)
    (elements : list (nat * string))
    (result : gmap string (gmap nat string))
    : M (gmap string (gmap nat string)) :=
  match elements with
  | [] => ret result
  | (element_index, element_value) :: rest =>
      do is_token <- lift (is_csrf_token param_name element_value);
      if is_token then
        let result :=
          match result !! param_name with
          | Some _ => result
          | None => <[param_name := ∅]> result
          end in
        let result :=
          <[param_name :=
              <[element_index := element_value]>
                (default ∅ (result !! param_name))]> result in
        do _ <- debug ("Found CSRF token " +:+ element_value +:+ " in parameter "
               +:+ param_name +:+ " for URL " +:+ get_url freq +:+ ".");
        ret result
      else find_in_elements freq param_name rest result
  end.

(** The outer loop, over the names of the container. *)
Fixpoint find_in_params (freq : FuzzableRequest) (dc : DataContainer)
    (result : gmap string (gmap nat string))
    : M (gmap string (gmap nat string)) :=
  match dc with
  | [] => ret result
  | (param_name, values) :: rest =>
      do result <- find_in_elements freq param_name (enumerate values) result;
      find_in_params freq rest result
  end.

Definition _find_csrf_token (freq : FuzzableRequest)
    : M (gmap string (gmap nat string)) :=
  find_in_params freq (get_dc freq) ∅.

(** The loop of [_is_token_checked] over the mutants. *)
Fixpoint check_mutants (mutants : list Mutant)
    (orig_response : HTTPResponse) : M bool :=
  match mutants with
  | [] => ret false
  | mutant :: rest =>
      do mutant_response <- send mutant (Some false);
      if negb (_is_resp_equal orig_response mutant_response) then ret true
      else check_mutants rest orig_response
  end.

Definition _is_token_checked (freq : FuzzableRequest)
    (token : gmap string (gmap nat string))
    (orig_response : HTTPResponse) : M bool :=
  do _ <- debug ("Testing for validation of token in " +:+ get_url freq);
  let mutants := create_mutants E freq ["123"] false (keys token) in
  check_mutants mutants orig_response.

Definition audit (freq : FuzzableRequest) (orig_response : HTTPResponse)
    : M unit :=
  do suitable <- _is_suitable freq;
  if negb suitable then ret tt
  else
    (* Referer/Origin check *)
    do origin_checked <- _is_origin_checked freq orig_response;
    if origin_checked then
      do _ <- debug ("Origin for " +:+ get_url freq +:+ " is checked");
      ret tt
    else
      (* Does the request have CSRF token in query string or POST payload? *)
      do tokens <- _find_csrf_token freq;
      do token_checked <-
        (if bool_decide (tokens ≠ ∅)
         then _is_token_checked freq tokens orig_response
         else ret false);
      if token_checked then
        do _ <- debug ("Token for " +:+ get_url freq +:+ " is exist and checked");
        ret tt
      else
        (* Ok, we have found vulnerable to CSRF attack request *)
        let msg := "Cross Site Request Forgery has been found at: "
                   +:+ get_url freq in
        let v := from_fr "CSRF vulnerability" msg HIGH
                         (response_id orig_response) (get_name E) freq in
        emit (KbAppendUniq "csrf" v).
End Plugin.

(** ** Predicates on strings used in the statements *)

Fixpoint string_exists (P : ascii → bool) (s : string) : bool :=
  match s with
  | EmptyString => false
  | String i rest => P i || string_exists P rest
  end.

Fixpoint string_forall (P : ascii → bool) (s : string) : bool :=
  match s with
  | EmptyString => true
  | String i rest => P i && string_forall P rest
  end.

(** [a] occurs in [b] as a run of consecutive characters. *)
Definition substring_of (a b : string) : Prop :=
  ∃ l r : string, b = l +:+ a +:+ r.

(** [a] is a suffix of [b]. *)
Definition suffix_of_string (a b : string) : Prop :=
  ∃ l : string, b = l +:+ a.

(** ** The token mutants, as the specification describes them *)

(** The first element of [enumerate(values)] the classifier accepts. *)
Fixpoint first_accepted (param_name : string) (elements : list (nat * string))
    : option (nat * string) :=
  match elements with
  | [] => None
  | (element_index, element_value) :: rest =>
      match is_csrf_token param_name element_value with
      | Ok true => Some (element_index, element_value)
      | _ => first_accepted param_name rest
      end
  end.

(** Modelled from the spec: [create_mutants] of core.data.fuzzer.fuzzer is
    not part of the sources at hand.  Section 4.6 of the specification: for
    each token-bearing parameter one mutated request is built that replaces
    the flagged value of that parameter with the sentinel and leaves all
    other parameters and values as they are, one request per flagged
    parameter.  The flagged value of a parameter is the first of its values
    the classifier accepts (section 4.5).  The caller passes the names of
    the token-bearing parameters only, so the model looks the flagged value
    up in the request.  The [append] flag, false at the only call, is not
    described and has no effect here. *)
Definition fuzzer_create_mutants (freq : FuzzableRequest)
    (mutant_str_list : list string) (append : bool)
    (fuzzable_param_list : list string) : list Mutant :=
  flat_map
    (λ item : string * list string,
       if bool_decide (item.1 ∈ fuzzable_param_list) then
         match first_accepted item.1 (enumerate item.2) with
         | Some (element_index, element_value) =>
             (λ mutant_str,
                {| mutant_kind := DcMutant;
                   mutant_freq := freq;
                   mutant_var := item.1;
                   mutant_index := element_index;
                   mutant_original_value := element_value;
                   mutant_mod_value := mutant_str |}) <$> mutant_str_list
         | None => []
         end
       else [])
    (get_dc freq).

(** The record the locator keeps for an accepted element. *)
Definition token_entry (iv : nat * string) : gmap nat string :=
  {[ iv.1 := iv.2 ]}.

Definition is_debug (ev : event) : bool :=
  match ev with Debug _ => true | _ => false end.

(** The line the locator logs for a token. *)
Definition found_token_msg (freq : FuzzableRequest) (param_name : string)
    (element_value : string) : string :=
  "Found CSRF token " +:+ element_value +:+ " in parameter "
  +:+ param_name +:+ " for URL " +:+ get_url freq +:+ ".".

(** The finding [audit] reports, and the lines it logs. *)
Definition csrf_finding (E : Env) (freq : FuzzableRequest)
    (orig_response : HTTPResponse) : Vuln :=
  from_fr "CSRF vulnerability"
          ("Cross Site Request Forgery has been found at: " +:+ get_url freq)
          HIGH (response_id orig_response) (get_name E) freq.

Definition suitable_msg (freq : FuzzableRequest) : string :=
  get_url freq +:+ " is suitable for CSRF attack".
Definition origin_checked_msg (freq : FuzzableRequest) : string :=
  "Origin for " +:+ get_url freq +:+ " is checked".
Definition token_checked_msg (freq : FuzzableRequest) : string :=
  "Token for " +:+ get_url freq +:+ " is exist and checked".
Definition testing_msg (freq : FuzzableRequest) : string :=
  "Testing for validation of token in " +:+ get_url freq.

(** The Referer probe of a request. *)
Definition referer_probe (freq : FuzzableRequest) : Mutant :=
  referer_mutant freq "http://www.w3af.org/".

(** ** Concrete requests, responses and servers *)

Module Examples.

Definition session_cookie : Cookie := {| cookie_domain := ".example.com" |}.
Definition foreign_cookie : Cookie := {| cookie_domain := ".other.org" |}.

(** A request with a token in its query string. *)
Definition transfer : FuzzableRequest :=
  {| get_method := "POST";
     get_url := "http://example.com/transfer";
     get_domain := "example.com";
     has_query_string := true;
     get_referer := "http://example.com/";
     get_dc := [("token", ["abc12345XYZ"]); ("amount", ["100"])] |}.

(** A request whose only parameter has neither a digit nor a letter. *)
Definition dashes : FuzzableRequest :=
  {| get_method := "POST";
     get_url := "http://example.com/search";
     get_domain := "example.com";
     has_query_string := true;
     get_referer := "http://example.com/";
     get_dc := [("q", ["----"])] |}.

Definition page : HTTPResponse :=
  {| get_code := 200; body := "done"; response_id := 7 |}.
Definition forbidden : HTTPResponse :=
  {| get_code := 403; body := "done"; response_id := 8 |}.

Definition same_body (a b : string) (limit : Q) : bool := String.eqb a b.

(** A server that ignores both the Referer and the token. *)
Definition careless : Env :=
  {| relative_distance_boolean := same_body;
     get_cookies := [session_cookie];
     send_mutant := λ _ _, Ok page;
     create_mutants := fuzzer_create_mutants;
     get_name := "csrf" |}.

(** A server that answers 403 to a foreign Referer. *)
Definition referer_checking : Env :=
  {| relative_distance_boolean := same_body;
     get_cookies := [session_cookie];
     send_mutant := λ m _,
       match mutant_kind m with
       | HeadersMutant => Ok forbidden
       | DcMutant => Ok page
       end;
     create_mutants := fuzzer_create_mutants;
     get_name := "csrf" |}.

(** A server that answers 403 to a changed token. *)
Definition token_checking : Env :=
  {| relative_distance_boolean := same_body;
     get_cookies := [session_cookie];
     send_mutant := λ m _,
       match mutant_kind m with
       | HeadersMutant => Ok page
       | DcMutant => Ok forbidden
       end;
     create_mutants := fuzzer_create_mutants;
     get_name := "csrf" |}.

(** A server that cannot be reached. *)
Definition unreachable : Env :=
  {| relative_distance_boolean := same_body;
     get_cookies := [session_cookie];
     send_mutant := λ _ _, Raise (SendError "timeout");
     create_mutants := fuzzer_create_mutants;
     get_name := "csrf" |}.

(** A jar that only holds a cookie of another site. *)
Definition no_session : Env :=
  {| relative_distance_boolean := same_body;
     get_cookies := [foreign_cookie];
     send_mutant := λ _ _, Ok page;
     create_mutants := fuzzer_create_mutants;
     get_name := "csrf" |}.

End Examples.

(** ** Further predicates and inputs used in the statements *)

(** The value has a digit or a letter: the alphabet estimate is not 0. *)
Definition has_alnum (value : string) : bool :=
  string_exists isdigit value || string_exists islower value
  || string_exists isupper value.

Definition has_letter (value : string) : bool :=
  string_exists islower value || string_exists isupper value.

(** The events of sending the mutants as the validator does. *)
Definition token_probes (mutants : list Mutant) : list event :=
  (λ m, SendMutant m (Some false)) <$> mutants.

(** The lines the locator logs on a parameter collection: one for each
    parameter that has a value the classifier accepts, for the first such
    value. *)
Definition token_lines (freq : FuzzableRequest) (dc : DataContainer)
    : list event :=
  omap (λ item : string * list string,
          (λ iv : nat * string, Debug (found_token_msg freq item.1 iv.2))
            <$> first_accepted item.1 (enumerate item.2))
       dc.


Module Cases.

(** A repeated parameter whose second value would make the classifier
    raise, and the same parameter without it. *)
Definition repeated : FuzzableRequest :=
  {| get_method := "POST";
     get_url := "http://example.com/pay";
     get_domain := "example.com";
     has_query_string := false;
     get_referer := "http://example.com/";
     get_dc := [("nonce", ["12345678901"; "----"])] |}.

Definition single : FuzzableRequest :=
  {| get_method := "POST";
     get_url := "http://example.com/pay";
     get_domain := "example.com";
     has_query_string := false;
     get_referer := "http://example.com/";
     get_dc := [("nonce", ["12345678901"])] |}.

(** The transfer request of [Examples], sent with GET. *)
Definition transfer_get : FuzzableRequest :=
  {| get_method := "GET";
     get_url := "http://example.com/transfer";
     get_domain := "example.com";
     has_query_string := true;
     get_referer := "http://example.com/";
     get_dc := [("token", ["abc12345XYZ"]); ("amount", ["100"])] |}.

(** A request without query string and without parameters. *)
Definition bare : FuzzableRequest :=
  {| get_method := "GET";
     get_url := "http://example.com/";
     get_domain := "example.com";
     has_query_string := false;
     get_referer := "";
     get_dc := [] |}.

(** A server that answers every probe with a page of another body but
    the status code 403. *)
Definition refusing : Env :=
  {| relative_distance_boolean := λ _ _ _, true;
     get_cookies := [Examples.session_cookie];
     send_mutant := λ _ _, Ok Examples.forbidden;
     create_mutants := fuzzer_create_mutants;
     get_name := "csrf" |}.

End Cases.

(** * Properties *)

(** ** Character classes *)

Lemma char_classes_disjoint (i : ascii) :
  isdigit i && islower i = false ∧ isdigit i && isupper i = false ∧
  islower i && isupper i = false ∧ is_space i && isdigit i = false ∧
  is_space i && islower i = false ∧ is_space i && isupper i = false.
Proof.
  destruct i as [[] [] [] [] [] [] [] []]; vm_compute; repeat split.
Qed.

Lemma scan_char_flags (i : ascii) (f : char_flags) :
  scan_char i f =
  CharFlags (total_digit f || isdigit i) (total_lower f || islower i)
            (total_upper f || isupper i) (total_spaces f || is_space i).
Proof.
  destruct (char_classes_disjoint i) as (H1 & H2 & H3 & H4 & H5 & H6).
  unfold scan_char. destruct f as [d l u s]; simpl.
  destruct (isdigit i), (islower i), (isupper i), (is_space i);
    simpl in *; try discriminate;
    rewrite ?orb_true_r, ?orb_false_r; reflexivity.
Qed.

Lemma scan_chars_from (value : string) (f : char_flags) :
  scan_chars value f =
  CharFlags (total_digit f || string_exists isdigit value)
            (total_lower f || string_exists islower value)
            (total_upper f || string_exists isupper value)
            (total_spaces f || string_exists is_space value).
Proof.
  revert f. induction value as [|i rest IH]; intros f; simpl.
  - destruct f; simpl. by rewrite !orb_false_r.
  - rewrite IH, scan_char_flags; simpl. by rewrite !orb_assoc.
Qed.

(** The flags after the loop say which classes occur in the value. *)
Lemma scan_chars_flags (value : string) :
  scan_chars value no_flags =
  CharFlags (string_exists isdigit value) (string_exists islower value)
            (string_exists isupper value) (string_exists is_space value).
Proof. by rewrite scan_chars_from. Qed.

Lemma alphabet_values (f : char_flags) :
  alphabet f ∈ [0; 10; 26; 36; 52; 62]%Z.
Proof.
  destruct f as [[] [] [] s]; vm_compute alphabet; set_solver.
Qed.

(** ** The entropy estimate *)

(** The model's entropy is the binary logarithm of [total ^ len], rounded
    down. *)
Lemma entropy_bits_floor (total : Z) (len : nat) (e : Z) :
  entropy_bits total len = Ok e →
  (2 ^ e ≤ total ^ Z.of_nat len < 2 ^ (e + 1))%Z.
Proof.
  unfold entropy_bits. destruct (Z.leb_spec total 0); [done|].
  intros [= <-].
  assert (0 < total ^ Z.of_nat len)%Z by (apply Z.pow_pos_nonneg; lia).
  replace (Z.log2 (total ^ Z.of_nat len) + 1)%Z
    with (Z.succ (Z.log2 (total ^ Z.of_nat len))) by lia.
  by apply Z.log2_spec.
Qed.

Lemma entropy_bits_ok (total : Z) (len : nat) :
  (0 < total)%Z → entropy_bits total len = Ok (Z.log2 (total ^ Z.of_nat len)).
Proof. unfold entropy_bits. intros. destruct (Z.leb_spec total 0); [lia|done]. Qed.

(** Over the reals the expression of the source, [log(total) * (len /
    log(2))], lies between the model's entropy and its successor: the
    model's entropy is its floor. *)
Lemma log2_floor_real (total : Z) (len : nat) :
  (0 < total)%Z →
  (IZR (Z.log2 (total ^ Z.of_nat len))
   <= ln (IZR total) * (INR len / ln 2)
   < IZR (Z.log2 (total ^ Z.of_nat len)) + 1)%R.
Proof.
  intros Hpos.
  assert (Hp : (0 < total ^ Z.of_nat len)%Z) by (apply Z.pow_pos_nonneg; lia).
  destruct (Z.log2_spec _ Hp) as [Hlo Hhi].
  pose proof (Z.log2_nonneg (total ^ Z.of_nat len)) as Hnn.
  set (e := Z.log2 (total ^ Z.of_nat len)) in *.
  assert (He : e = Z.of_nat (Z.to_nat e)) by lia.
  assert (Hl2 : (0 < ln 2)%R).
  { rewrite <- ln_1. apply ln_increasing; lra. }
  assert (HT : (0 < IZR total)%R) by (apply IZR_lt; lia).
  assert (Hlo' : (INR (Z.to_nat e) * ln 2 <= INR len * ln (IZR total))%R).
  { rewrite <- !ln_pow by lra. rewrite !pow_IZR.
    rewrite <- He.
    apply IZR_le in Hlo.
    destruct (Rle_lt_or_eq_dec _ _ Hlo) as [Hlt| ->]; [|lra].
    left. apply ln_increasing; [|done].
    apply IZR_lt. apply Z.pow_pos_nonneg; lia. }
  assert (Hhi' : (INR len * ln (IZR total) < INR (S (Z.to_nat e)) * ln 2)%R).
  { rewrite <- !ln_pow by lra. rewrite !pow_IZR.
    replace (Z.of_nat (S (Z.to_nat e))) with (Z.succ e) by lia.
    apply ln_increasing; [apply IZR_lt; lia|by apply IZR_lt]. }
  rewrite S_INR in Hhi'.
  assert (HeR : IZR e = INR (Z.to_nat e)).
  { rewrite INR_IZR_INZ. by rewrite <- He. }
  rewrite HeR.
  replace (ln (IZR total) * (INR len / ln 2))%R
    with ((INR len * ln (IZR total)) / ln 2)%R by (field; lra).
  split.
  - apply Rmult_le_reg_r with (ln 2); [done|].
    unfold Rdiv. rewrite Rmult_assoc, Rinv_l by lra. lra.
  - apply Rmult_lt_reg_r with (ln 2); [done|].
    unfold Rdiv. rewrite Rmult_assoc, Rinv_l by lra. lra.
Qed.

Lemma entropy_bits_real (total : Z) (len : nat) (e : Z) :
  entropy_bits total len = Ok e →
  (IZR e <= ln (IZR total) * (INR len / ln 2) < IZR e + 1)%R.
Proof.
  unfold entropy_bits. destruct (Z.leb_spec total 0); [done|].
  intros [= <-]. by apply log2_floor_real.
Qed.

Lemma pow_margin (total : Z) (k : nat) (len : nat) :
  (1 < total)%Z →
  (total ^ Z.of_nat k * 8 ≤ 7 * 2 ^ 36)%Z →
  (9 * 2 ^ 36 ≤ total ^ Z.of_nat (S k) * 8)%Z →
  (total ^ Z.of_nat len * 8 ≤ 7 * 2 ^ 36 ∨
   9 * 2 ^ 36 ≤ total ^ Z.of_nat len * 8)%Z.
Proof.
  intros Ht Hlo Hhi. destruct (decide (len ≤ k)%nat) as [Hle|Hgt].
  - left. etrans; [|exact Hlo]. apply Z.mul_le_mono_nonneg_r; [lia|].
    apply Z.pow_le_mono_r; lia.
  - right. etrans; [exact Hhi|]. apply Z.mul_le_mono_nonneg_r; [lia|].
    apply Z.pow_le_mono_r; lia.
Qed.

(** For every alphabet the loop can produce and every length, [total ^ len]
    stays away from [2 ^ 36] by a factor of at least 8/7 or 9/8: the
    comparison [entropy >= 36] is decided with a margin of more than a
    sixth of a bit. *)
Lemma entropy_margin (f : char_flags) (len : nat) :
  alphabet f ≠ 0%Z →
  (alphabet f ^ Z.of_nat len * 8 ≤ 7 * 2 ^ 36 ∨
   9 * 2 ^ 36 ≤ alphabet f ^ Z.of_nat len * 8)%Z.
Proof.
  intros Hnz. pose proof (alphabet_values f) as Hin.
  remember (alphabet f) as total eqn:Ht; clear Ht.
  repeat (apply elem_of_cons in Hin as [->|Hin]); [done|..].
  - apply (pow_margin 10 10); [lia|vm_compute; discriminate..].
  - apply (pow_margin 26 7); [lia|vm_compute; discriminate..].
  - apply (pow_margin 36 6); [lia|vm_compute; discriminate..].
  - apply (pow_margin 52 6); [lia|vm_compute; discriminate..].
  - apply (pow_margin 62 6); [lia|vm_compute; discriminate..].
  - by apply elem_of_nil in Hin.
Qed.

(** ** The classifier *)

Lemma is_csrf_token_other_name (key value : string) :
  key ∉ COMMON_CSRF_NAMES →
  is_csrf_token key value =
  if (String.length value <? min_length)%nat then Ok false
  else
    let f := scan_chars value no_flags in
    match entropy_bits (alphabet f) (String.length value) with
    | Raise e => Raise e
    | Ok entropy =>
        if (min_entropy <=? entropy)%Z
        then (if negb (total_spaces f) && total_digit f then Ok true else Ok false)
        else Ok false
    end.
Proof.
  intros Hkey. unfold is_csrf_token. by rewrite bool_decide_eq_false_2.
Qed.

(** Without a digit or a letter the alphabet estimate is 0 and [math.log]
    raises. *)
Lemma is_csrf_token_zero_alphabet (key value : string) :
  key ∉ COMMON_CSRF_NAMES →
  (4 ≤ String.length value)%nat →
  string_exists isdigit value = false →
  string_exists islower value = false →
  string_exists isupper value = false →
  is_csrf_token key value = Raise (ValueError "math domain error").
Proof.
  intros Hkey Hlen Hd Hl Hu. rewrite is_csrf_token_other_name by done.
  destruct (Nat.ltb_spec (String.length value) min_length) as [Hlt|_].
  { unfold min_length in Hlt. lia. }
  cbv zeta. rewrite scan_chars_flags, Hd, Hl, Hu. reflexivity.
Qed.

(** C1: a name outside the well-known set with a value of length at least 4
    that has no digit and no letter.  On the value "----" under the name
    "foo" the classifier does not return false: the alphabet estimate is 0
    and the logarithm raises [ValueError]. *)
Theorem is_csrf_token_dashes_raises :
  ("foo" ∉ COMMON_CSRF_NAMES) ∧
  (4 ≤ String.length "----")%nat ∧
  alphabet (scan_chars "----" no_flags) = 0%Z ∧
  is_csrf_token "foo" "----" = Raise (ValueError "math domain error").
Proof.
  split; [|by vm_compute].
  apply (bool_decide_unpack _). vm_compute. exact I.
Qed.

(** C5: under a well-known CSRF parameter name every non-empty value is a
    token, whatever its length, characters or entropy. *)
Theorem is_csrf_token_common_name (key value : string) :
  key ∈ COMMON_CSRF_NAMES → value ≠ "" →
  is_csrf_token key value = Ok true.
Proof.
  intros Hkey Hval. unfold is_csrf_token.
  rewrite bool_decide_eq_true_2 by done.
  destruct (String.eqb_spec value ""); [done|reflexivity].
Qed.

Lemma is_csrf_token_common_name_witness :
  is_csrf_token "csrf_token" "x" = Ok true.
Proof.
  apply (is_csrf_token_common_name "csrf_token" "x").
  - apply (bool_decide_unpack _). vm_compute. exact I.
  - discriminate.
Defined.

(** C6, as stated, fails: under the name "token" the value "a b", which
    contains a space, is accepted through the name shortcut. *)
Lemma is_csrf_token_space_under_common_name :
  string_exists is_space "a b" = true ∧
  is_csrf_token "token" "a b" = Ok true ∧
  is_csrf_token "token" "a b" ≠ Ok false.
Proof. by vm_compute. Qed.

(** C6, amended: under a name outside the well-known set a value that
    contains a space is never accepted, and it is rejected with [False]
    whenever it is shorter than 4 characters or has a digit or a letter. *)
Theorem is_csrf_token_space (key value : string) :
  key ∉ COMMON_CSRF_NAMES →
  string_exists is_space value = true →
  is_csrf_token key value ≠ Ok true ∧
  ((String.length value < 4)%nat ∨
   string_exists isdigit value || string_exists islower value
     || string_exists isupper value = true →
   is_csrf_token key value = Ok false).
Proof.
  intros Hkey Hsp. rewrite is_csrf_token_other_name by done.
  destruct (Nat.ltb_spec (String.length value) min_length) as [Hlt|Hge].
  { split; [discriminate|done]. }
  cbv zeta. rewrite scan_chars_flags; simpl total_spaces; simpl total_digit.
  rewrite Hsp; simpl negb; simpl andb.
  set (f := CharFlags _ _ _ _).
  unfold entropy_bits. destruct (Z.leb_spec (alphabet f) 0) as [Hz|Hpos].
  - split; [discriminate|]. intros [Hlt|Hal].
    + unfold min_length in Hge. lia.
    + exfalso. subst f. unfold alphabet in Hz; simpl in Hz.
      destruct (string_exists isdigit value), (string_exists islower value),
        (string_exists isupper value); simpl in *; try discriminate; lia.
  - destruct (min_entropy <=? _)%Z; split; (discriminate || done).
Qed.

Lemma is_csrf_token_space_witness :
  is_csrf_token "foo" "Token 12345 ABCDE" ≠ Ok true ∧
  is_csrf_token "foo" "Token 12345 ABCDE" = Ok false.
Proof.
  assert (Hkey : "foo" ∉ COMMON_CSRF_NAMES).
  { apply (bool_decide_unpack _). vm_compute. exact I. }
  destruct (is_csrf_token_space "foo" "Token 12345 ABCDE" Hkey eq_refl)
    as [Hne Heq].
  split; [exact Hne|]. apply Heq. right. reflexivity.
Defined.

(** C10: under a name outside the well-known set, a value of at least 11
    characters, all of them digits, is a token: the alphabet estimate is
    10, the entropy is at least 36, there is a digit and no space. *)
Theorem is_csrf_token_digits (key value : string) :
  key ∉ COMMON_CSRF_NAMES →
  string_forall isdigit value = true →
  (11 ≤ String.length value)%nat →
  alphabet (scan_chars value no_flags) = 10%Z ∧
  (∃ entropy, entropy_bits 10 (String.length value) = Ok entropy ∧
              (36 ≤ entropy)%Z) ∧
  total_digit (scan_chars value no_flags) = true ∧
  total_spaces (scan_chars value no_flags) = false ∧
  is_csrf_token key value = Ok true.
Proof.
  intros Hkey Hall Hlen.
  assert (Hothers : ∀ P : ascii → bool,
            (∀ i, isdigit i = true → P i = false) →
            string_exists P value = false).
  { intros P HP. clear Hlen. induction value as [|i rest IH]; [done|].
    simpl in *. apply andb_prop in Hall as [Hi Hrest].
    by rewrite (HP i Hi), IH. }
  assert (Hd : string_exists isdigit value = true).
  { destruct value as [|i rest]; simpl in *; [lia|].
    apply andb_prop in Hall as [-> _]. reflexivity. }
  assert (Hl : string_exists islower value = false).
  { apply Hothers. intros i Hi.
    destruct (char_classes_disjoint i) as (H & _). by rewrite Hi in H. }
  assert (Hu : string_exists isupper value = false).
  { apply Hothers. intros i Hi.
    destruct (char_classes_disjoint i) as (_ & H & _). by rewrite Hi in H. }
  assert (Hs : string_exists is_space value = false).
  { apply Hothers. intros i Hi.
    destruct (char_classes_disjoint i) as (_ & _ & _ & H & _).
    rewrite Hi in H. by destruct (is_space i). }
  assert (He : (36 ≤ Z.log2 (10 ^ Z.of_nat (String.length value)))%Z).
  { change 36%Z with (Z.log2 (10 ^ Z.of_nat 11)).
    apply Z.log2_le_mono, Z.pow_le_mono_r; lia. }
  rewrite is_csrf_token_other_name by done. cbv zeta.
  rewrite scan_chars_flags, Hd, Hl, Hu, Hs.
  change (alphabet (CharFlags true false false false)) with 10%Z.
  rewrite entropy_bits_ok by lia.
  simpl total_spaces; simpl total_digit.
  repeat split; [eauto|].
  destruct (Nat.ltb_spec (String.length value) min_length) as [Hlt|_].
  { unfold min_length in Hlt. lia. }
  destruct (Z.leb_spec min_entropy
              (Z.log2 (10 ^ Z.of_nat (String.length value)))) as [_|Hlt].
  - reflexivity.
  - unfold min_entropy in Hlt. lia.
Qed.

Lemma is_csrf_token_digits_witness :
  is_csrf_token "foo" "12345678901" = Ok true.
Proof.
  assert (Hkey : "foo" ∉ COMMON_CSRF_NAMES).
  { apply (bool_decide_unpack _). vm_compute. exact I. }
  apply (is_csrf_token_digits "foo" "12345678901" Hkey eq_refl).
  simpl. lia.
Defined.

(** ** Strings *)

Lemma prefix_spec (a b : string) :
  String.prefix a b = true ↔ ∃ r : string, b = a +:+ r.
Proof.
  revert b. induction a as [|c a IH]; intros b.
  - split; [intros _; by exists b|by destruct b].
  - destruct b as [|d b]; simpl.
    + split; [done|]. intros [r Hr]. discriminate.
    + destruct (ascii_dec c d) as [->|Hne].
      * rewrite IH. split; intros [r Hr]; exists r.
        -- by rewrite Hr.
        -- by injection Hr.
      * split; [done|]. intros [r Hr]. injection Hr as ? ?. congruence.
Qed.

(** [str_in a b] decides whether [a] occurs in [b]. *)
Lemma str_in_spec (a b : string) : str_in a b = true ↔ substring_of a b.
Proof.
  unfold substring_of. induction b as [|d b IH].
  - change (str_in a "") with (String.prefix a "" || false).
    rewrite orb_false_r, prefix_spec. split.
    + intros [r Hr]. by exists "", r.
    + intros (l & r & Hlr). destruct l; [by exists r|discriminate].
  - change (str_in a (String d b))
      with (String.prefix a (String d b) || str_in a b).
    rewrite orb_true_iff, prefix_spec, IH. split.
    + intros [[r Hr]|(l & r & Hlr)].
      * by exists "", r.
      * exists (String d l), r. simpl. by rewrite Hlr.
    + intros (l & r & Hlr). destruct l as [|c l].
      * left. by exists r.
      * right. exists l, r. simpl in Hlr. by injection Hlr.
Qed.

Lemma suffix_is_substring (a b : string) :
  suffix_of_string a b → substring_of a b.
Proof.
  intros [l ->]. exists l, "".
  f_equal. symmetry. induction a as [|c a IH]; [done|].
  change (String c (a +:+ "") = String c a). by rewrite IH.
Qed.

(** ** The suitability filter *)

(** The filter never raises, and a positive answer comes with its one line
    of debug output. *)
Lemma _is_suitable_outcome (E : Env) (self : csrf) (freq : FuzzableRequest) :
  _is_suitable E self freq = ([], Ok false) ∨
  _is_suitable E self freq =
    ([Debug (get_url freq +:+ " is suitable for CSRF attack")], Ok true).
Proof.
  unfold _is_suitable.
  repeat match goal with |- context [if ?b then _ else _] => destruct b end;
    auto.
Qed.

Lemma _is_suitable_true (E : Env) (self : csrf) (freq : FuzzableRequest) :
  (_is_suitable E self freq).2 = Ok true →
  _is_suitable E self freq =
    ([Debug (get_url freq +:+ " is suitable for CSRF attack")], Ok true).
Proof.
  destruct (_is_suitable_outcome E self freq) as [H|H]; rewrite H; [done|].
  done.
Qed.

(** C2, as stated, fails: the jar holds the cookie of ".example.com", which
    is neither a substring nor a suffix of the request's domain
    "example.com", and the request is suitable. *)
Lemma _is_suitable_cookie_domain_not_in_url_domain :
  (∀ cookie, cookie ∈ get_cookies Examples.careless →
     ¬ substring_of (cookie_domain cookie) (get_domain Examples.transfer) ∧
     ¬ suffix_of_string (cookie_domain cookie) (get_domain Examples.transfer)) ∧
  (_is_suitable Examples.careless __init__ Examples.transfer).2 = Ok true.
Proof.
  split; [|reflexivity].
  intros cookie Hin. apply list_elem_of_singleton in Hin as ->.
  assert (Hsub : ¬ substring_of ".example.com" "example.com").
  { rewrite <- str_in_spec. by vm_compute. }
  split; [exact Hsub|]. intros Hsuf. by apply Hsub, suffix_is_substring.
Qed.

(** C2, amended: the test is in the other direction.  A request is accepted
    only if its URL's domain occurs in the domain of at least one cookie;
    when it occurs in no cookie's domain the filter answers [False]. *)
Theorem _is_suitable_needs_cookie (E : Env) (self : csrf)
    (freq : FuzzableRequest) :
  ((_is_suitable E self freq).2 = Ok true →
   ∃ cookie, cookie ∈ get_cookies E ∧
             substring_of (get_domain freq) (cookie_domain cookie)) ∧
  ((∀ cookie, cookie ∈ get_cookies E →
      ¬ substring_of (get_domain freq) (cookie_domain cookie)) →
   _is_suitable E self freq = ([], Ok false)).
Proof.
  unfold _is_suitable.
  destruct (existsb _ (get_cookies E)) eqn:Hex; simpl negb; cbv iota.
  - apply existsb_exists in Hex as (cookie & Hin & Hsub).
    apply list_elem_of_In in Hin. apply str_in_spec in Hsub. split.
    + eauto.
    + intros Hnone. by destruct (Hnone cookie Hin).
  - split; [done|reflexivity].
Qed.

Lemma _is_suitable_needs_cookie_witness :
  _is_suitable Examples.no_session __init__ Examples.transfer = ([], Ok false).
Proof.
  apply (_is_suitable_needs_cookie Examples.no_session __init__
           Examples.transfer).
  intros cookie Hin. apply list_elem_of_singleton in Hin as ->.
  rewrite <- str_in_spec. by vm_compute.
Defined.

(** ** The monad *)

Lemma bind_ok {A B} (c : M A) (k : A → M B) (evs : list event) (a : A) :
  c = (evs, Ok a) → bind c k = (evs ++ (k a).1, (k a).2).
Proof. intros ->. simpl. by destruct (k a). Qed.

Lemma bind_raise {A B} (c : M A) (k : A → M B) (evs : list event) (e : exn) :
  c = (evs, Raise e) → bind c k = (evs, Raise e).
Proof. by intros ->. Qed.

Lemma bind_ok_inv {A B} (c : M A) (k : A → M B) (evs : list event) (b : B) :
  bind c k = (evs, Ok b) →
  ∃ evs1 a evs2, c = (evs1, Ok a) ∧ k a = (evs2, Ok b) ∧ evs = evs1 ++ evs2.
Proof.
  destruct c as [evs1 [a|e]]; simpl; [|done].
  destruct (k a) as [evs2 r] eqn:Hk. intros [= <- ->]. eauto 6.
Qed.

Lemma findings_app (evs1 evs2 : list event) :
  findings (evs1 ++ evs2) = findings evs1 ++ findings evs2.
Proof. apply omap_app. Qed.

Lemma sent_app (evs1 evs2 : list event) :
  sent (evs1 ++ evs2) = sent evs1 ++ sent evs2.
Proof. apply omap_app. Qed.

Lemma findings_debug (evs : list event) :
  forallb is_debug evs = true → findings evs = [].
Proof.
  induction evs as [|[] evs IH]; simpl; auto; done.
Qed.

Lemma findings_sends (mutants : list Mutant) (a : option bool) :
  findings ((λ m, SendMutant m a) <$> mutants) = [].
Proof. induction mutants as [|m ms IH]; [done|exact IH]. Qed.

Lemma sent_debug (evs : list event) :
  forallb is_debug evs = true → sent evs = [].
Proof.
  induction evs as [|[] evs IH]; simpl; auto; done.
Qed.

(** ** The token locator *)

Lemma record_token (param_name : string) (i : nat) (v : string)
    (result : gmap string (gmap nat string)) :
  (let result' :=
     match result !! param_name with
     | Some _ => result
     | None => <[param_name := ∅]> result
     end in
   <[param_name := <[i := v]> (default ∅ (result' !! param_name))]> result')
  = <[param_name := <[i := v]> (default ∅ (result !! param_name))]> result.
Proof.
  cbv zeta. destruct (result !! param_name) as [old|] eqn:Hold.
  - by rewrite Hold.
  - by rewrite lookup_insert_eq, insert_insert_eq.
Qed.

(** What the inner loop does, by the classification of the first element
    that is not rejected. *)
Lemma find_in_elements_cons (freq : FuzzableRequest) (param_name : string)
    (i : nat) (v : string) (rest : list (nat * string))
    (result : gmap string (gmap nat string)) :
  find_in_elements freq param_name ((i, v) :: rest) result =
  match is_csrf_token param_name v with
  | Ok true =>
      ([Debug (found_token_msg freq param_name v)],
       Ok (<[param_name := <[i := v]> (default ∅ (result !! param_name))]>
             result))
  | Ok false => find_in_elements freq param_name rest result
  | Raise e => ([], Raise e)
  end.
Proof.
  simpl. unfold lift. destruct (is_csrf_token param_name v) as [[]|e]; simpl.
  - pose proof (record_token param_name i v result) as Hrec.
    cbv zeta in Hrec. by rewrite Hrec.
  - by destruct (find_in_elements freq param_name rest result).
  - done.
Qed.

Lemma find_in_elements_ok (freq : FuzzableRequest) (param_name : string)
    (elements : list (nat * string))
    (result r : gmap string (gmap nat string)) (evs : list event) :
  find_in_elements freq param_name elements result = (evs, Ok r) →
  match first_accepted param_name elements with
  | Some (i, v) =>
      r = <[param_name := <[i := v]> (default ∅ (result !! param_name))]> result
      ∧ evs = [Debug (found_token_msg freq param_name v)]
  | None => r = result ∧ evs = []
  end.
Proof.
  induction elements as [|[i v] rest IH].
  - simpl. by intros [= <- <-].
  - rewrite find_in_elements_cons. simpl first_accepted.
    destruct (is_csrf_token param_name v) as [[]|e].
    + by intros [= <- <-].
    + exact IH.
    + done.
Qed.

Lemma find_in_elements_events (freq : FuzzableRequest) (param_name : string)
    (elements : list (nat * string))
    (result : gmap string (gmap nat string)) :
  forallb is_debug (find_in_elements freq param_name elements result).1 = true.
Proof.
  induction elements as [|[i v] rest IH]; [done|].
  rewrite find_in_elements_cons.
  by destruct (is_csrf_token param_name v) as [[]|e].
Qed.

Lemma find_in_params_events (freq : FuzzableRequest) (dc : DataContainer)
    (result : gmap string (gmap nat string)) :
  forallb is_debug (find_in_params freq dc result).1 = true.
Proof.
  revert result. induction dc as [|[name values] rest IH]; intros result;
    [done|].
  simpl find_in_params.
  pose proof (find_in_elements_events freq name (enumerate values) result)
    as Hev.
  destruct (find_in_elements freq name (enumerate values) result)
    as [evs1 [r1|e]] eqn:H1.
  - rewrite (bind_ok _ _ _ _ eq_refl). simpl fst.
    rewrite forallb_app. simpl in Hev. rewrite Hev. apply IH.
  - by rewrite (bind_raise _ _ _ _ eq_refl).
Qed.

(** The locator only writes debug lines. *)
Lemma _find_csrf_token_events (freq : FuzzableRequest) :
  forallb is_debug (_find_csrf_token freq).1 = true.
Proof. apply find_in_params_events. Qed.

Lemma find_in_params_ok (freq : FuzzableRequest) (dc : DataContainer)
    (result tokens : gmap string (gmap nat string)) (evs : list event) :
  NoDup dc.*1 →
  (∀ name, name ∈ dc.*1 → result !! name = None) →
  find_in_params freq dc result = (evs, Ok tokens) →
  (∀ name values, (name, values) ∈ dc →
     tokens !! name
     = token_entry <$> first_accepted name (enumerate values)) ∧
  (∀ name, name ∉ dc.*1 → tokens !! name = result !! name).
Proof.
  revert result evs.
  induction dc as [|[n vs] rest IH]; intros result evs Hnd Hfresh Hrun.
  - simpl in Hrun. injection Hrun as <- <-. split; [|done].
    intros name values Hin. by apply elem_of_nil in Hin.
  - simpl in Hnd. apply NoDup_cons in Hnd as [Hn Hnd].
    simpl find_in_params in Hrun.
    apply bind_ok_inv in Hrun as (evs1 & r1 & evs2 & H1 & H2 & ->).
    apply find_in_elements_ok in H1.
    assert (Hr1 : ∀ name, name ≠ n → r1 !! name = result !! name).
    { intros name Hne. destruct (first_accepted n (enumerate vs)) as [[i v]|].
      - destruct H1 as [-> _]. by rewrite lookup_insert_ne.
      - by destruct H1 as [-> _]. }
    assert (Hr1n : r1 !! n = token_entry <$> first_accepted n (enumerate vs)).
    { destruct (first_accepted n (enumerate vs)) as [[i v]|].
      - destruct H1 as [-> _]. rewrite lookup_insert_eq.
        rewrite (Hfresh n) by (simpl; apply list_elem_of_here).
        simpl. by rewrite insert_empty.
      - destruct H1 as [-> _]. simpl. apply Hfresh. simpl.
        apply list_elem_of_here. }
    destruct (IH r1 evs2 Hnd) as [IHin IHout]; [|done|].
    { intros name Hin. rewrite Hr1.
      - apply Hfresh. simpl. by apply list_elem_of_further.
      - intros ->. done. }
    split.
    + intros name values Hin. apply elem_of_cons in Hin as [[= -> ->]|Hin].
      * by rewrite IHout.
      * by apply IHin.
    + intros name Hout. simpl in Hout. apply not_elem_of_cons in Hout as [? ?].
      rewrite IHout by done. by apply Hr1.
Qed.

Lemma first_accepted_Some (param_name : string) (n : nat)
    (values : list string) (i : nat) (v : string) :
  first_accepted param_name (enumerate_from n values) = Some (i, v) ↔
  ∃ k, i = (n + k)%nat ∧ values !! k = Some v ∧
       is_csrf_token param_name v = Ok true ∧
       ∀ j w, (j < k)%nat → values !! j = Some w →
              is_csrf_token param_name w ≠ Ok true.
Proof.
  revert n. induction values as [|x values IH]; intros n; simpl.
  - split; [done|]. by intros (k & _ & ? & _).
  - assert (is_csrf_token param_name x = Ok true ∨
            is_csrf_token param_name x ≠ Ok true) as [Hx|Hx].
    { destruct (is_csrf_token param_name x) as [[]|e]; auto. }
    + rewrite Hx. split.
      * intros [= <- <-]. exists 0%nat. repeat split; [lia|done|lia].
      * intros (k & -> & Hk & Hv & Hfirst). destruct k as [|k].
        -- simpl in Hk. injection Hk as <-. do 2 f_equal. lia.
        -- destruct (Hfirst 0%nat x); [lia|done|done].
    + assert (Hskip : match is_csrf_token param_name x with
                       | Ok true => Some (n, x)
                       | _ => first_accepted param_name
                                (enumerate_from (S n) values)
                       end
                       = first_accepted param_name
                           (enumerate_from (S n) values)).
      { by destruct (is_csrf_token param_name x) as [[]|]. }
      rewrite Hskip, IH. split.
      * intros (k & -> & Hk & Hv & Hfirst). exists (S k).
        repeat split; [lia|done|done|].
        intros [|j] w Hj Hw; simpl in Hw.
        -- by injection Hw as <-.
        -- apply (Hfirst j); [lia|done].
      * intros (k & -> & Hk & Hv & Hfirst). destruct k as [|k].
        -- simpl in Hk. injection Hk as <-. done.
        -- exists k. repeat split; [lia|done|done|].
           intros j w Hj Hw. apply (Hfirst (S j)); [lia|done].
Qed.

Lemma first_accepted_None (param_name : string) (n : nat)
    (values : list string) :
  first_accepted param_name (enumerate_from n values) = None ↔
  ∀ w, w ∈ values → is_csrf_token param_name w ≠ Ok true.
Proof.
  revert n. induction values as [|x values IH]; intros n; simpl.
  - split; [|done]. intros _ w Hw. by apply elem_of_nil in Hw.
  - destruct (is_csrf_token param_name x) as [[]|e] eqn:Hx.
    + split; [done|]. intros H. destruct (H x); [apply list_elem_of_here|done].
    + rewrite IH. split.
      * intros H w Hw. apply elem_of_cons in Hw as [->|Hw];
          [by rewrite Hx|by apply H].
      * intros H w Hw. apply H. by apply list_elem_of_further.
    + rewrite IH. split.
      * intros H w Hw. apply elem_of_cons in Hw as [->|Hw];
          [by rewrite Hx|by apply H].
      * intros H w Hw. apply H. by apply list_elem_of_further.
Qed.

(** First match wins: once an element is accepted, the elements after it
    are not examined, whatever the classifier would do on them. *)
Lemma find_in_elements_first_match (freq : FuzzableRequest)
    (param_name : string) (pre post : list (nat * string)) (i : nat)
    (v : string) (result : gmap string (gmap nat string)) :
  (∀ x, x ∈ pre → is_csrf_token param_name x.2 = Ok false) →
  is_csrf_token param_name v = Ok true →
  find_in_elements freq param_name (pre ++ (i, v) :: post) result =
  ([Debug (found_token_msg freq param_name v)],
   Ok (<[param_name := <[i := v]> (default ∅ (result !! param_name))]> result)).
Proof.
  intros Hpre Hv. induction pre as [|[j w] pre IH].
  - simpl app. by rewrite find_in_elements_cons, Hv.
  - simpl app. rewrite find_in_elements_cons.
    pose proof (Hpre (j, w) ltac:(apply list_elem_of_here)) as Hw.
    simpl in Hw. rewrite Hw.
    apply IH. intros x Hx. apply Hpre. by apply list_elem_of_further.
Qed.

(** What the locator returns, when it returns. *)
Theorem _find_csrf_token_first_match (freq : FuzzableRequest)
    (evs : list event) (tokens : gmap string (gmap nat string)) :
  NoDup (get_dc freq).*1 →
  _find_csrf_token freq = (evs, Ok tokens) →
  (∀ name values, (name, values) ∈ get_dc freq →
     tokens !! name = token_entry <$> first_accepted name (enumerate values)) ∧
  (∀ name, name ∉ (get_dc freq).*1 → tokens !! name = None) ∧
  ((∀ name values w, (name, values) ∈ get_dc freq → w ∈ values →
      is_csrf_token name w ≠ Ok true) → tokens = ∅).
Proof.
  intros Hnd Hrun. unfold _find_csrf_token in Hrun.
  destruct (find_in_params_ok freq (get_dc freq) ∅ tokens evs Hnd)
    as [Hin Hout]; [done|done|].
  split; [exact Hin|]. split; [exact Hout|].
  intros Hnone. apply map_eq. intros name. rewrite lookup_empty.
  destruct (decide (name ∈ (get_dc freq).*1)) as [Hname|Hname].
  - apply list_elem_of_fmap in Hname as ([n values] & -> & Hitem). simpl.
    rewrite (Hin n values Hitem).
    assert (first_accepted n (enumerate values) = None) as ->; [|done].
    apply first_accepted_None. intros w Hw. by apply (Hnone n values).
  - by apply Hout.
Qed.

(** The locator returns when the classifier returns on every value. *)
Lemma _find_csrf_token_returns (freq : FuzzableRequest) :
  (∀ name values w, (name, values) ∈ get_dc freq → w ∈ values →
     ∃ b, is_csrf_token name w = Ok b) →
  ∃ evs tokens, _find_csrf_token freq = (evs, Ok tokens).
Proof.
  unfold _find_csrf_token. generalize (∅ : gmap string (gmap nat string)).
  induction (get_dc freq) as [|[n vs] rest IH]; intros result Hok.
  - by exists [], result.
  - assert (Hinner : ∀ elements result,
              (∀ x, x ∈ elements → x.2 ∈ vs) →
              ∃ evs r, find_in_elements freq n elements result = (evs, Ok r)).
    { intros elements result'. induction elements as [|[i v] els IHe];
        intros Hsub; [by exists [], result'|].
      rewrite find_in_elements_cons.
      destruct (Hok n vs v) as [b Hb];
        [apply list_elem_of_here|apply (Hsub (i, v)), list_elem_of_here|].
      rewrite Hb. destruct b; [eauto|].
      apply IHe. intros x Hx. apply Hsub. by apply list_elem_of_further. }
    destruct (Hinner (enumerate vs) result) as (evs1 & r1 & H1).
    { unfold enumerate. generalize 0%nat. clear.
      induction vs as [|v vs IH]; intros k x Hx; simpl in Hx.
      - by apply elem_of_nil in Hx.
      - apply elem_of_cons in Hx as [->|Hx]; [apply list_elem_of_here|].
        apply list_elem_of_further. by apply (IH (S k)). }
    destruct (IH r1) as (evs2 & tokens & H2).
    { intros name values w Hin Hw. apply (Hok name values w); [|done].
      by apply list_elem_of_further. }
    exists (evs1 ++ evs2), tokens. simpl find_in_params.
    rewrite (bind_ok _ _ _ _ H1). by rewrite H2.
Qed.

(** C7: on a request whose only parameter holds the value "----" no value
    is accepted by the classifier, and the locator does not return the
    empty map: the classifier's logarithm of 0 raises [ValueError] and the
    locator ends with it. *)
Theorem _find_csrf_token_dashes_raises :
  NoDup (get_dc Examples.dashes).*1 ∧
  (∀ name values w, (name, values) ∈ get_dc Examples.dashes → w ∈ values →
     is_csrf_token name w ≠ Ok true) ∧
  _find_csrf_token Examples.dashes
  = ([], Raise (ValueError "math domain error")).
Proof.
  split; [|split].
  - simpl. apply NoDup_singleton.
  - intros name values w Hin Hw. simpl in Hin.
    apply list_elem_of_singleton in Hin as [= -> ->].
    apply list_elem_of_singleton in Hw as ->. by vm_compute.
  - by vm_compute.
Qed.

(** ** The probes *)

Section Probes.
Variable E : Env.
Variable self : csrf.

Lemma _is_origin_checked_ok (freq : FuzzableRequest)
    (orig r : HTTPResponse) :
  send_mutant E (referer_mutant freq "http://www.w3af.org/") None = Ok r →
  _is_origin_checked E self freq orig =
  ([SendMutant (referer_mutant freq "http://www.w3af.org/") None],
   Ok (negb (_is_resp_equal E self orig r))).
Proof.
  intros Hsend. unfold _is_origin_checked, send. cbv zeta. rewrite Hsend.
  simpl. by destruct (_is_resp_equal E self orig r).
Qed.

Lemma _is_origin_checked_raise (freq : FuzzableRequest)
    (orig : HTTPResponse) (e : exn) :
  send_mutant E (referer_mutant freq "http://www.w3af.org/") None = Raise e →
  _is_origin_checked E self freq orig =
  ([SendMutant (referer_mutant freq "http://www.w3af.org/") None], Raise e).
Proof.
  intros Hsend. unfold _is_origin_checked, send. cbv zeta. by rewrite Hsend.
Qed.

(** One turn of the validator's loop. *)
Lemma check_mutants_cons (m : Mutant) (rest : list Mutant)
    (orig : HTTPResponse) :
  check_mutants E self (m :: rest) orig =
  match send_mutant E m (Some false) with
  | Ok r =>
      if _is_resp_equal E self orig r
      then (SendMutant m (Some false) :: (check_mutants E self rest orig).1,
            (check_mutants E self rest orig).2)
      else ([SendMutant m (Some false)], Ok true)
  | Raise e => ([SendMutant m (Some false)], Raise e)
  end.
Proof.
  simpl. unfold send. destruct (send_mutant E m (Some false)) as [r|e];
    simpl; [|done].
  destruct (_is_resp_equal E self orig r); simpl; [|done].
  by destruct (check_mutants E self rest orig).
Qed.



(** When every response equals the original, every mutant is sent and the
    answer is [False]. *)
Lemma check_mutants_all_equal (mutants : list Mutant)
    (orig : HTTPResponse) :
  (∀ m, m ∈ mutants →
     ∃ r, send_mutant E m (Some false) = Ok r ∧
          _is_resp_equal E self orig r = true) →
  check_mutants E self mutants orig =
  ((λ m, SendMutant m (Some false)) <$> mutants, Ok false).
Proof.
  induction mutants as [|m rest IH]; intros Hall; [done|].
  rewrite check_mutants_cons.
  destruct (Hall m) as (r & -> & ->); [apply list_elem_of_here|].
  rewrite IH; [done|]. intros m' Hm'. apply Hall.
  by apply list_elem_of_further.
Qed.

(** The loop only sends. *)
Lemma check_mutants_findings (mutants : list Mutant) (orig : HTTPResponse) :
  findings (check_mutants E self mutants orig).1 = [].
Proof.
  induction mutants as [|m rest IH]; [done|].
  rewrite check_mutants_cons.
  destruct (send_mutant E m (Some false)) as [r|e]; [|done].
  by destruct (_is_resp_equal E self orig r).
Qed.

(** A probe of the loop that fails ends the loop with its exception. *)
Lemma check_mutants_failure (mutants : list Mutant) (orig : HTTPResponse)
    (m : Mutant) (a : option bool) (e : exn) :
  SendMutant m a ∈ (check_mutants E self mutants orig).1 →
  send_mutant E m a = Raise e →
  (check_mutants E self mutants orig).2 = Raise e ∧
  last (check_mutants E self mutants orig).1 = Some (SendMutant m a).
Proof.
  intros Hin Hfail. induction mutants as [|m0 rest IH].
  - by apply elem_of_nil in Hin.
  - rewrite check_mutants_cons in Hin |- *.
    destruct (send_mutant E m0 (Some false)) as [r|e0] eqn:Hsend.
    + destruct (_is_resp_equal E self orig r); simpl in Hin |- *.
      * apply elem_of_cons in Hin as [[= -> ->]|Hin]; [congruence|].
        destruct (IH Hin) as [IH1 IH2]. split; [done|].
        destruct (check_mutants E self rest orig).1; [done|].
        by rewrite last_cons, IH2.
      * apply list_elem_of_singleton in Hin as [= -> ->]. congruence.
    + simpl in Hin. apply list_elem_of_singleton in Hin as [= -> ->].
      simpl. split; [congruence|done].
Qed.

Lemma _is_token_checked_eq (freq : FuzzableRequest)
    (token : gmap string (gmap nat string)) (orig : HTTPResponse) :
  _is_token_checked E self freq token orig =
  (Debug ("Testing for validation of token in " +:+ get_url freq)
     :: (check_mutants E self
           (create_mutants E freq ["123"] false (keys token)) orig).1,
   (check_mutants E self
      (create_mutants E freq ["123"] false (keys token)) orig).2).
Proof.
  unfold _is_token_checked, debug, emit. cbv zeta.
  by rewrite (bind_ok _ _ _ _ eq_refl).
Qed.
End Probes.

(** ** The orchestrator *)

Section Audit.
Variable E : Env.
Variable self : csrf.

Lemma audit_not_suitable (freq : FuzzableRequest) (orig : HTTPResponse) :
  (_is_suitable E self freq).2 ≠ Ok true →
  audit E self freq orig = ([], Ok tt).
Proof.
  intros Hns. unfold audit.
  destruct (_is_suitable_outcome E self freq) as [H|H]; rewrite H in *;
    [done|]. by destruct Hns.
Qed.

(** The runs of [audit] on a suitable request, by the outcome of each
    step. *)
Lemma audit_suitable (freq : FuzzableRequest) (orig : HTTPResponse) :
  (_is_suitable E self freq).2 = Ok true →
  audit E self freq orig =
  let start := [Debug (suitable_msg freq);
                SendMutant (referer_probe freq) None] in
  match send_mutant E (referer_probe freq) None with
  | Raise e => (start, Raise e)
  | Ok r =>
      if _is_resp_equal E self orig r then
        match _find_csrf_token freq with
        | (evs, Raise e) => (start ++ evs, Raise e)
        | (evs, Ok tokens) =>
            if bool_decide (tokens ≠ ∅) then
              let probes := _is_token_checked E self freq tokens orig in
              match probes.2 with
              | Raise e => (start ++ evs ++ probes.1, Raise e)
              | Ok true =>
                  (start ++ evs ++ probes.1
                     ++ [Debug (token_checked_msg freq)], Ok tt)
              | Ok false =>
                  (start ++ evs ++ probes.1
                     ++ [KbAppendUniq "csrf" (csrf_finding E freq orig)],
                   Ok tt)
              end
            else
              (start ++ evs
                 ++ [KbAppendUniq "csrf" (csrf_finding E freq orig)], Ok tt)
        end
      else (start ++ [Debug (origin_checked_msg freq)], Ok tt)
  end.
Proof.
  intros Hs. apply _is_suitable_true in Hs. unfold audit.
  rewrite (bind_ok _ _ _ _ Hs). cbv beta. simpl negb. cbv iota. cbv zeta.
  fold (suitable_msg freq). unfold referer_probe.
  destruct (send_mutant E (referer_mutant freq "http://www.w3af.org/") None)
    as [r|e] eqn:Hsend.
  - rewrite (bind_ok _ _ _ _ (_is_origin_checked_ok E self freq orig r Hsend)).
    cbv beta. destruct (_is_resp_equal E self orig r); simpl negb; cbv iota.
    + destruct (_find_csrf_token freq) as [evs [tokens|e]] eqn:Hloc.
      * rewrite (bind_ok _ _ _ _ eq_refl). cbv beta.
        destruct (bool_decide (tokens ≠ ∅)).
        -- destruct (_is_token_checked E self freq tokens orig)
             as [pevs [[]|e]] eqn:Hprobe.
           ++ rewrite (bind_ok _ _ _ _ eq_refl). cbv beta iota.
              unfold debug, emit. rewrite (bind_ok _ _ _ _ eq_refl).
              simpl. done.
           ++ rewrite (bind_ok _ _ _ _ eq_refl). cbv beta iota.
              unfold emit. simpl. done.
           ++ rewrite (bind_raise _ _ _ _ eq_refl). simpl. done.
        -- unfold ret at 1. rewrite (bind_ok _ _ _ _ eq_refl).
           cbv beta iota. unfold emit. simpl. done.
      * rewrite (bind_raise _ _ _ _ eq_refl). simpl. done.
    + unfold debug, emit. rewrite (bind_ok _ _ _ _ eq_refl). simpl. done.
  - rewrite (bind_raise _ _ _ _
               (_is_origin_checked_raise E self freq orig e Hsend)).
    done.
Qed.
End Audit.

(** C4: on a suitable request whose Referer probe is answered differently
    from the original response, the audit consists of the suitability
    line, the one Referer probe and the line that the origin is checked,
    and ends normally.  No finding is reported; the trace has none of the
    locator's or the validator's lines and none of the validator's probes,
    and the run does not depend on what the classifier would do on the
    request's parameters. *)
Theorem audit_origin_checked (E : Env) (self : csrf) (freq : FuzzableRequest)
    (orig r : HTTPResponse) :
  (_is_suitable E self freq).2 = Ok true →
  send_mutant E (referer_probe freq) None = Ok r →
  _is_resp_equal E self orig r = false →
  audit E self freq orig =
    ([Debug (suitable_msg freq); SendMutant (referer_probe freq) None;
      Debug (origin_checked_msg freq)], Ok tt) ∧
  findings (audit E self freq orig).1 = [] ∧
  sent (audit E self freq orig).1 = [(referer_probe freq, None)].
Proof.
  intros Hs Hsend Hdiff.
  assert (Hrun : audit E self freq orig =
            ([Debug (suitable_msg freq); SendMutant (referer_probe freq) None;
              Debug (origin_checked_msg freq)], Ok tt)).
  { rewrite audit_suitable by done. cbv zeta. by rewrite Hsend, Hdiff. }
  by rewrite Hrun.
Qed.

Lemma audit_origin_checked_witness :
  audit Examples.referer_checking __init__ Examples.dashes Examples.page =
    ([Debug (suitable_msg Examples.dashes);
      SendMutant (referer_probe Examples.dashes) None;
      Debug (origin_checked_msg Examples.dashes)], Ok tt) ∧
  findings
    (audit Examples.referer_checking __init__ Examples.dashes Examples.page).1
  = [] ∧
  sent
    (audit Examples.referer_checking __init__ Examples.dashes Examples.page).1
  = [(referer_probe Examples.dashes, None)].
Proof.
  apply (audit_origin_checked Examples.referer_checking __init__
           Examples.dashes Examples.page Examples.forbidden);
    reflexivity.
Defined.

(** X24: where the locator returns.  On a suitable request whose Referer
    probe is answered like the original response, when the locator
    returns no token, or returns tokens and every token probe is answered
    like the original response, the audit ends normally and reports
    exactly one finding: of severity HIGH, for the request and for the
    identifier of the original response. *)
Theorem audit_reports_csrf (E : Env) (self : csrf) (freq : FuzzableRequest)
    (orig r : HTTPResponse) (tokens : gmap string (gmap nat string)) :
  (_is_suitable E self freq).2 = Ok true →
  send_mutant E (referer_probe freq) None = Ok r →
  _is_resp_equal E self orig r = true →
  (_find_csrf_token freq).2 = Ok tokens →
  (tokens = ∅ ∨
   ∀ m, m ∈ create_mutants E freq ["123"] false (keys tokens) →
        ∃ r', send_mutant E m (Some false) = Ok r' ∧
              _is_resp_equal E self orig r' = true) →
  (audit E self freq orig).2 = Ok tt ∧
  findings (audit E self freq orig).1 = [csrf_finding E freq orig] ∧
  vuln_severity (csrf_finding E freq orig) = HIGH ∧
  vuln_freq (csrf_finding E freq orig) = freq ∧
  vuln_response_id (csrf_finding E freq orig) = response_id orig.
Proof.
  intros Hs Hsend Heq Hloc Htok.
  rewrite audit_suitable by done. cbv zeta. rewrite Hsend, Heq.
  pose proof (_find_csrf_token_events freq) as Hdebug.
  destruct (_find_csrf_token freq) as [evs [tokens'|e]]; [|done].
  simpl in Hloc, Hdebug. injection Hloc as ->.
  apply findings_debug in Hdebug.
  case_bool_decide as Hne.
  - destruct Htok as [->|Hall]; [done|].
    rewrite _is_token_checked_eq. rewrite check_mutants_all_equal by done.
    simpl. split; [done|]. split; [|by repeat split].
    change (findings (evs ++ Debug (testing_msg freq)
              :: ((λ m, SendMutant m (Some false))
                    <$> create_mutants E freq ["123"] false (keys tokens))
              ++ [KbAppendUniq "csrf" (csrf_finding E freq orig)])
            = [csrf_finding E freq orig]).
    rewrite findings_app, Hdebug. simpl. rewrite findings_app.
    by rewrite findings_sends.
  - simpl. split; [done|]. split; [|by repeat split].
    change (findings (evs ++ [KbAppendUniq "csrf" (csrf_finding E freq orig)])
            = [csrf_finding E freq orig]).
    by rewrite findings_app, Hdebug.
Qed.

Lemma audit_reports_csrf_witness :
  (audit Examples.careless __init__ Examples.transfer Examples.page).2 = Ok tt ∧
  findings (audit Examples.careless __init__ Examples.transfer Examples.page).1
  = [csrf_finding Examples.careless Examples.transfer Examples.page].
Proof.
  destruct (audit_reports_csrf Examples.careless __init__ Examples.transfer
              Examples.page Examples.page
              {[ "token" := {[ 0%nat := "abc12345XYZ" ]} ]})
    as (H1 & H2 & _).
  - reflexivity.
  - reflexivity.
  - reflexivity.
  - vm_compute. reflexivity.
  - right. intros m _. exists Examples.page. split; reflexivity.
  - exact (conj H1 H2).
Defined.

(** C3: on the request whose only parameter holds the value "----", with a
    server that answers every probe with the original page, the request
    passes the suitability filter, the Referer probe is answered with a
    response equal to the original and no value of the request is accepted
    by the classifier, so no token candidate is found; yet the audit
    reports no finding: the classifier's logarithm of 0 raises
    [ValueError] inside the locator and the audit ends with it, after the
    Referer probe. *)
Theorem audit_dashes_no_finding :
  (_is_suitable Examples.careless __init__ Examples.dashes).2 = Ok true ∧
  (∃ r, send_mutant Examples.careless (referer_probe Examples.dashes) None
        = Ok r ∧
        _is_resp_equal Examples.careless __init__ Examples.page r = true) ∧
  (∀ name values w, (name, values) ∈ get_dc Examples.dashes → w ∈ values →
     is_csrf_token name w ≠ Ok true) ∧
  audit Examples.careless __init__ Examples.dashes Examples.page
  = ([Debug (suitable_msg Examples.dashes);
      SendMutant (referer_probe Examples.dashes) None],
     Raise (ValueError "math domain error")) ∧
  findings (audit Examples.careless __init__ Examples.dashes Examples.page).1
  = [].
Proof.
  split; [reflexivity|]. split; [by exists Examples.page|]. split.
  - intros name values w Hin Hw. simpl in Hin.
    apply list_elem_of_singleton in Hin as [= -> ->].
    apply list_elem_of_singleton in Hw as ->. by vm_compute.
  - by vm_compute.
Qed.

Lemma sent_nil : sent [] = [].
Proof. done. Qed.
Lemma sent_cons_debug (msg : string) (evs : list event) :
  sent (Debug msg :: evs) = sent evs.
Proof. done. Qed.
Lemma sent_cons_send (m : Mutant) (a : option bool) (evs : list event) :
  sent (SendMutant m a :: evs) = (m, a) :: sent evs.
Proof. done. Qed.
Lemma sent_cons_kb (loc : string) (v : Vuln) (evs : list event) :
  sent (KbAppendUniq loc v :: evs) = sent evs.
Proof. done. Qed.

Create Rewrite HintDb trace.
#[local] Hint Rewrite sent_app sent_nil sent_cons_debug sent_cons_send
  sent_cons_kb : trace.

Lemma elem_of_sent (evs : list event) (m : Mutant) (a : option bool) :
  (m, a) ∈ sent evs ↔ SendMutant m a ∈ evs.
Proof.
  unfold sent. rewrite list_elem_of_omap. split.
  - intros ([] & Hin & Heq); try done. by injection Heq as -> ->.
  - intros Hin. by exists (SendMutant m a).
Qed.

(** C9, as stated, fails: when the Referer probe cannot be sent, the audit
    does not go on as for an inconclusive probe; it ends with the
    exception of the send. *)
Lemma audit_unreachable_raises :
  (_is_suitable Examples.unreachable __init__ Examples.transfer).2 = Ok true ∧
  send_mutant Examples.unreachable (referer_probe Examples.transfer) None
  = Raise (SendError "timeout") ∧
  audit Examples.unreachable __init__ Examples.transfer Examples.page
  = ([Debug (suitable_msg Examples.transfer);
      SendMutant (referer_probe Examples.transfer) None],
     Raise (SendError "timeout")) ∧
  (audit Examples.unreachable __init__ Examples.transfer Examples.page).2
  ≠ Ok tt.
Proof. by vm_compute. Qed.

(** C9, amended: a probe whose send raises is the last thing the audit
    does.  The exception is not caught, it is the outcome of the audit,
    and no finding is reported. *)
Theorem audit_probe_failure (E : Env) (self : csrf) (freq : FuzzableRequest)
    (orig : HTTPResponse) (m : Mutant) (a : option bool) (e : exn) :
  SendMutant m a ∈ (audit E self freq orig).1 →
  send_mutant E m a = Raise e →
  (audit E self freq orig).2 = Raise e ∧
  findings (audit E self freq orig).1 = [] ∧
  last (audit E self freq orig).1 = Some (SendMutant m a).
Proof.
  intros Hin Hfail. apply elem_of_sent in Hin.
  destruct (_is_suitable_outcome E self freq) as [Hs|Hs].
  { rewrite audit_not_suitable in Hin by (by rewrite Hs).
    by apply elem_of_nil in Hin. }
  assert (Hs' : (_is_suitable E self freq).2 = Ok true) by (by rewrite Hs).
  rewrite audit_suitable in Hin |- * by done. cbv zeta in Hin |- *.
  destruct (send_mutant E (referer_probe freq) None) as [r|e0] eqn:Hsend.
  - assert (Hstart : (m, a) ≠ (referer_probe freq, None)).
    { intros [= -> ->]. congruence. }
    destruct (_is_resp_equal E self orig r).
    + pose proof (_find_csrf_token_events freq) as Hdebug.
      destruct (_find_csrf_token freq) as [evs [tokens|e1]]; simpl in Hdebug.
      * case_bool_decide as Hne.
        -- rewrite _is_token_checked_eq in Hin |- *. cbv zeta in Hin |- *.
           simpl fst in Hin |- *. simpl snd in Hin |- *.
           set (probes := check_mutants E self
                  (create_mutants E freq ["123"] false (keys tokens)) orig)
             in *.
           assert (Hp : SendMutant m a ∈ probes.1).
           { apply elem_of_sent.
             destruct probes.2 as [[]|e1]; simpl fst in Hin;
               autorewrite with trace in Hin;
               rewrite (sent_debug evs Hdebug), ?app_nil_r in Hin;
               by apply elem_of_cons in Hin as [?|?]. }
           destruct (check_mutants_failure E self _ orig m a e Hp Hfail)
             as [Hres Hlast].
           fold probes in Hres, Hlast. rewrite Hres. simpl.
           split; [done|]. split.
           ++ rewrite findings_app, (findings_debug evs Hdebug). simpl.
              apply check_mutants_findings.
           ++ change (last ([Debug (suitable_msg freq);
                             SendMutant (referer_probe freq) None]
                            ++ evs ++ [Debug (testing_msg freq)] ++ probes.1)
                      = Some (SendMutant m a)).
              by rewrite !last_app, Hlast.
        -- simpl fst in Hin. autorewrite with trace in Hin.
           rewrite (sent_debug evs Hdebug) in Hin.
           by apply list_elem_of_singleton in Hin.
      * simpl fst in Hin. autorewrite with trace in Hin.
        rewrite (sent_debug evs Hdebug) in Hin.
        by apply list_elem_of_singleton in Hin.
    + simpl in Hin. by apply list_elem_of_singleton in Hin.
  - simpl in Hin |- *. apply list_elem_of_singleton in Hin as [= -> ->].
    split; [congruence|done].
Qed.

Lemma audit_probe_failure_witness :
  (audit Examples.unreachable __init__ Examples.transfer Examples.page).2
  = Raise (SendError "timeout") ∧
  findings
    (audit Examples.unreachable __init__ Examples.transfer Examples.page).1
  = [] ∧
  last (audit Examples.unreachable __init__ Examples.transfer Examples.page).1
  = Some (SendMutant (referer_probe Examples.transfer) None).
Proof.
  apply (audit_probe_failure Examples.unreachable __init__ Examples.transfer
           Examples.page (referer_probe Examples.transfer) None
           (SendError "timeout")).
  - vm_compute. apply list_elem_of_further, list_elem_of_here.
  - reflexivity.
Defined.

(** ** The token validator over the mutants of the specification *)












(** ** The plugin on the concrete requests and servers *)

Example is_csrf_token_short : is_csrf_token "foo" "ab1" = Ok false.
Proof. reflexivity. Qed.

Example is_csrf_token_mixed :
  is_csrf_token "foo" "aB3xQ9mK2pL7vN4sT1wZ6" = Ok true.
Proof. by vm_compute. Qed.

Example is_csrf_token_lowercase :
  is_csrf_token "foo" "abcdefghijklmnopqrst" = Ok false.
Proof. by vm_compute. Qed.

Example is_csrf_token_ten_digits :
  is_csrf_token "foo" "1234567890" = Ok false.
Proof. by vm_compute. Qed.

Example _find_csrf_token_transfer :
  _find_csrf_token Examples.transfer =
  ([Debug (found_token_msg Examples.transfer "token" "abc12345XYZ")],
   Ok {[ "token" := {[ 0%nat := "abc12345XYZ" ]} ]}).
Proof. by vm_compute. Qed.

Example audit_careless :
  audit Examples.careless __init__ Examples.transfer Examples.page =
  ([Debug (suitable_msg Examples.transfer);
    SendMutant (referer_probe Examples.transfer) None;
    Debug (found_token_msg Examples.transfer "token" "abc12345XYZ");
    Debug (testing_msg Examples.transfer);
    SendMutant {| mutant_kind := DcMutant; mutant_freq := Examples.transfer;
                  mutant_var := "token"; mutant_index := 0;
                  mutant_original_value := "abc12345XYZ";
                  mutant_mod_value := "123" |} (Some false);
    KbAppendUniq "csrf"
      (csrf_finding Examples.careless Examples.transfer Examples.page)],
   Ok tt).
Proof. by vm_compute. Qed.

Example audit_token_checking :
  audit Examples.token_checking __init__ Examples.transfer Examples.page =
  ([Debug (suitable_msg Examples.transfer);
    SendMutant (referer_probe Examples.transfer) None;
    Debug (found_token_msg Examples.transfer "token" "abc12345XYZ");
    Debug (testing_msg Examples.transfer);
    SendMutant {| mutant_kind := DcMutant; mutant_freq := Examples.transfer;
                  mutant_var := "token"; mutant_index := 0;
                  mutant_original_value := "abc12345XYZ";
                  mutant_mod_value := "123" |} (Some false);
    Debug (token_checked_msg Examples.transfer)],
   Ok tt).
Proof. by vm_compute. Qed.

Example audit_dashes :
  audit Examples.careless __init__ Examples.dashes Examples.page =
  ([Debug (suitable_msg Examples.dashes);
    SendMutant (referer_probe Examples.dashes) None],
   Raise (ValueError "math domain error")).
Proof. by vm_compute. Qed.

(** * Further properties *)

(** ** The classifier as a decision table *)

Lemma string_exists_app (P : ascii → bool) (a b : string) :
  string_exists P (a +:+ b) = string_exists P a || string_exists P b.
Proof.
  induction a as [|c a IH]; [done|].
  change (P c || string_exists P (a +:+ b)
          = P c || string_exists P a || string_exists P b).
  by rewrite IH, orb_assoc.
Qed.

Lemma string_length_app (a b : string) :
  String.length (a +:+ b) = (String.length a + String.length b)%nat.
Proof.
  induction a as [|c a IH]; [done|].
  change (S (String.length (a +:+ b))
          = S (String.length a + String.length b)). by rewrite IH.
Qed.

Lemma min_entropy_leb (x : Z) :
  (0 < x)%Z → (min_entropy <=? Z.log2 x)%Z = (2 ^ 36 <=? x)%Z.
Proof.
  intros Hx. unfold min_entropy.
  pose proof (Z.log2_le_pow2 x 36 Hx) as Hiff.
  destruct (Z.leb_spec 36 (Z.log2 x)), (Z.leb_spec (2 ^ 36) x);
    try done; lia.
Qed.

Lemma alphabet_pos (value : string) :
  has_alnum value = true → (10 ≤ alphabet (scan_chars value no_flags))%Z.
Proof.
  unfold has_alnum. rewrite scan_chars_flags. unfold alphabet. simpl.
  destruct (string_exists isdigit value), (string_exists islower value),
    (string_exists isupper value); simpl; (done || lia).
Qed.

Lemma alphabet_zero (value : string) :
  has_alnum value = false → alphabet (scan_chars value no_flags) = 0%Z.
Proof.
  unfold has_alnum. rewrite scan_chars_flags. unfold alphabet. simpl.
  by destruct (string_exists isdigit value), (string_exists islower value),
    (string_exists isupper value).
Qed.

(** The classifier, with the loop and the logarithm resolved. *)
Lemma is_csrf_token_table (key value : string) :
  is_csrf_token key value =
  if bool_decide (key ∈ COMMON_CSRF_NAMES) && negb (String.eqb value "")
  then Ok true
  else if (String.length value <? 4)%nat then Ok false
  else if negb (has_alnum value) then Raise (ValueError "math domain error")
  else Ok ((2 ^ 36 <=? alphabet (scan_chars value no_flags)
                        ^ Z.of_nat (String.length value))%Z
           && negb (string_exists is_space value)
           && string_exists isdigit value).
Proof.
  unfold is_csrf_token.
  destruct (bool_decide (key ∈ COMMON_CSRF_NAMES) && negb (String.eqb value ""));
    [done|].
  change min_length with 4%nat.
  destruct (String.length value <? 4)%nat; [done|]. cbv zeta.
  destruct (has_alnum value) eqn:Hal; simpl negb; cbv iota.
  - pose proof (alphabet_pos value Hal) as Hpos.
    rewrite entropy_bits_ok by lia.
    rewrite min_entropy_leb by (apply Z.pow_pos_nonneg; lia).
    rewrite scan_chars_flags at 2 3. simpl total_spaces. simpl total_digit.
    destruct (2 ^ 36 <=? _)%Z; [|done].
    by destruct (string_exists is_space value),
      (string_exists isdigit value).
  - rewrite (alphabet_zero value Hal). reflexivity.
Qed.

Lemma string_nonempty_length (value : string) :
  String.eqb value "" = false ↔ (0 < String.length value)%nat.
Proof. destruct value; simpl; split; (done || lia). Qed.

Lemma pow_threshold (total : Z) (k len : nat) :
  (1 < total)%Z →
  (total ^ Z.of_nat k < 2 ^ 36)%Z →
  (2 ^ 36 ≤ total ^ Z.of_nat (S k))%Z →
  (2 ^ 36 <=? total ^ Z.of_nat len)%Z = (S k <=? len)%nat.
Proof.
  intros Ht Hlo Hhi.
  destruct (Nat.leb_spec (S k) len) as [Hle|Hgt];
    [apply Z.leb_le|apply Z.leb_gt].
  - etrans; [exact Hhi|]. apply Z.pow_le_mono_r; lia.
  - eapply Z.le_lt_trans; [|exact Hlo]. apply Z.pow_le_mono_r; lia.
Qed.

(** X1: the values the classifier accepts.  A value is a token exactly when
    it is non-empty under a well-known name, or has at least 4 characters,
    a digit, no space, and an alphabet estimate [a] with [a ^ len] at least
    [2 ^ 36]. *)
Theorem is_csrf_token_true_iff (key value : string) :
  is_csrf_token key value = Ok true ↔
  (key ∈ COMMON_CSRF_NAMES ∧ value ≠ "") ∨
  ((4 ≤ String.length value)%nat ∧
   string_exists isdigit value = true ∧
   string_exists is_space value = false ∧
   (2 ^ 36 ≤ alphabet (scan_chars value no_flags)
             ^ Z.of_nat (String.length value))%Z).
Proof.
  rewrite is_csrf_token_table.
  destruct (decide (key ∈ COMMON_CSRF_NAMES)) as [Hkey|Hkey];
    [rewrite (bool_decide_eq_true_2 _ Hkey)
    |rewrite (bool_decide_eq_false_2 _ Hkey)];
    simpl andb.
  - destruct (String.eqb_spec value "") as [->|Hne]; simpl negb; cbv iota.
    + simpl. split; [done|]. intros [[_ ?]|[Hlen _]]; [done|simpl in Hlen; lia].
    + split; [auto|done].
  - destruct (Nat.ltb_spec (String.length value) 4) as [Hlt|Hge].
    { split; [done|]. intros [[? _]|[? _]]; [done|lia]. }
    destruct (has_alnum value) eqn:Hal; simpl negb; cbv iota.
    + split.
      * intros [= Hb]. apply andb_prop in Hb as [Hb Hd].
        apply andb_prop in Hb as [Hp Hs]. apply Z.leb_le in Hp.
        right. repeat split; try done. by destruct (string_exists is_space value).
      * intros [[? _]|(_ & Hd & Hs & Hp)]; [done|].
        apply Z.leb_le in Hp. by rewrite Hp, Hd, Hs.
    + split; [done|]. intros [[? _]|(_ & Hd & _)]; [done|].
      unfold has_alnum in Hal. by rewrite Hd in Hal.
Qed.

(** X2: the only exception of the classifier is the [ValueError] of the
    logarithm, and it is raised exactly under a name outside the
    well-known set on a value of at least 4 characters without digit and
    letter; on every other input the classifier returns a boolean. *)
Theorem is_csrf_token_raise_iff (key value : string) (e : exn) :
  is_csrf_token key value = Raise e ↔
  e = ValueError "math domain error" ∧
  (key ∉ COMMON_CSRF_NAMES) ∧
  (4 ≤ String.length value)%nat ∧
  has_alnum value = false.
Proof.
  rewrite is_csrf_token_table.
  destruct (decide (key ∈ COMMON_CSRF_NAMES)) as [Hkey|Hkey];
    [rewrite (bool_decide_eq_true_2 _ Hkey)
    |rewrite (bool_decide_eq_false_2 _ Hkey)];
    simpl andb.
  - destruct (String.eqb_spec value "") as [->|Hne]; simpl negb; cbv iota.
    + simpl. split; [done|]. by intros (_ & ? & _).
    + split; [done|]. by intros (_ & ? & _).
  - destruct (Nat.ltb_spec (String.length value) 4) as [Hlt|Hge].
    { split; [done|]. intros (_ & _ & ? & _). lia. }
    destruct (has_alnum value) eqn:Hal; simpl negb; cbv iota.
    + split; [done|]. by intros (_ & _ & _ & ?).
    + split; [by intros [= <-]|by intros [-> _]].
Qed.

(** X3: under a well-known name the classifier never raises and accepts
    exactly the non-empty values; the empty value is rejected by the
    length check. *)
Theorem is_csrf_token_well_known_name (key value : string) :
  key ∈ COMMON_CSRF_NAMES →
  is_csrf_token key value = Ok (negb (String.eqb value "")).
Proof.
  intros Hkey. rewrite is_csrf_token_table.
  rewrite (bool_decide_eq_true_2 _ Hkey). simpl andb.
  by destruct (String.eqb_spec value "") as [->|Hne].
Qed.

Lemma is_csrf_token_well_known_name_witness :
  is_csrf_token "csrf" "" = Ok false.
Proof.
  apply (is_csrf_token_well_known_name "csrf" "").
  apply (bool_decide_unpack _). vm_compute. exact I.
Defined.

(** X4: outside the well-known names a value without a digit is never a
    token, however long it is and whatever letters it has. *)
Theorem is_csrf_token_needs_digit (key value : string) :
  key ∉ COMMON_CSRF_NAMES →
  string_exists isdigit value = false →
  is_csrf_token key value ≠ Ok true ∧
  (has_letter value = true → is_csrf_token key value = Ok false).
Proof.
  intros Hkey Hd. rewrite is_csrf_token_table.
  rewrite (bool_decide_eq_false_2 _ Hkey). simpl andb.
  destruct (String.length value <? 4)%nat; [done|].
  unfold has_alnum, has_letter. rewrite Hd, !andb_false_r. simpl orb.
  by destruct (string_exists islower value || string_exists isupper value).
Qed.

Lemma is_csrf_token_needs_digit_witness :
  is_csrf_token "foo" "abcdefghijklmnopqrstABCDEFGHIJ" = Ok false.
Proof.
  apply (is_csrf_token_needs_digit "foo" "abcdefghijklmnopqrstABCDEFGHIJ");
    [|reflexivity..].
  apply (bool_decide_unpack _). vm_compute. exact I.
Defined.

(** X5: the length at which a value with a digit and without a space
    becomes a token, outside the well-known names: 11 characters when it
    has no letter, 7 when it has one. *)
Theorem is_csrf_token_length_threshold (key value : string) :
  key ∉ COMMON_CSRF_NAMES →
  string_exists isdigit value = true →
  string_exists is_space value = false →
  is_csrf_token key value =
  Ok (if has_letter value then (7 <=? String.length value)%nat
      else (11 <=? String.length value)%nat).
Proof.
  intros Hkey Hd Hs. rewrite is_csrf_token_table.
  rewrite (bool_decide_eq_false_2 _ Hkey). simpl andb.
  unfold has_alnum, has_letter. rewrite scan_chars_flags, Hd, Hs.
  simpl orb. simpl negb. cbv iota. rewrite !andb_true_r.
  destruct (Nat.ltb_spec (String.length value) 4) as [Hlt|Hge].
  { destruct (_ || _); f_equal; symmetry; apply Nat.leb_gt; lia. }
  f_equal. unfold alphabet. cbn [total_digit total_lower total_upper].
  destruct (string_exists islower value), (string_exists isupper value);
    cbn [orb Z.b2z]; rewrite ?Z.mul_1_l, ?Z.mul_0_l, ?Z.add_0_r;
    cbn [Z.add Pos.add Pos.succ Pos.add_carry].
  - apply (pow_threshold 62 6); [lia|by vm_compute..].
  - apply (pow_threshold 36 6); [lia|by vm_compute..].
  - apply (pow_threshold 36 6); [lia|by vm_compute..].
  - apply (pow_threshold 10 10); [lia|by vm_compute..].
Qed.

Lemma is_csrf_token_length_threshold_witness :
  is_csrf_token "foo" "a1b2c3" = Ok false ∧
  is_csrf_token "foo" "a1b2c3d" = Ok true.
Proof.
  assert (Hkey : "foo" ∉ COMMON_CSRF_NAMES).
  { apply (bool_decide_unpack _). vm_compute. exact I. }
  split.
  - exact (is_csrf_token_length_threshold "foo" "a1b2c3" Hkey eq_refl eq_refl).
  - exact (is_csrf_token_length_threshold "foo" "a1b2c3d" Hkey eq_refl eq_refl).
Defined.

(** X6: a token stays a token when characters other than spaces are put
    before and after it. *)
Theorem is_csrf_token_extend (key u v w : string) :
  is_csrf_token key v = Ok true →
  string_exists is_space u = false →
  string_exists is_space w = false →
  is_csrf_token key (u +:+ v +:+ w) = Ok true.
Proof.
  intros Hv Hu Hw. rewrite is_csrf_token_table in Hv |- *.
  assert (Hlen : (String.length v ≤ String.length (u +:+ v +:+ w))%nat).
  { rewrite !string_length_app. lia. }
  destruct (bool_decide (key ∈ COMMON_CSRF_NAMES)); simpl andb in Hv |- *.
  - destruct (String.eqb v "") eqn:Hve; simpl negb in Hv; cbv iota in Hv.
    + apply String.eqb_eq in Hve as ->. by simpl in Hv.
    + apply string_nonempty_length in Hve.
      assert (String.eqb (u +:+ v +:+ w) "" = false) as ->; [|done].
      apply string_nonempty_length. lia.
  - destruct (Nat.ltb_spec (String.length v) 4) as [?|Hge]; [done|].
    destruct (has_alnum v) eqn:Hal; simpl negb in Hv; cbv iota in Hv; [|done].
    injection Hv as Hv. apply andb_prop in Hv as [Hv Hd].
    apply andb_prop in Hv as [Hp Hs]. apply Z.leb_le in Hp.
    destruct (Nat.ltb_spec (String.length (u +:+ v +:+ w)) 4) as [?|_]; [lia|].
    assert (Hal' : has_alnum (u +:+ v +:+ w) = true).
    { unfold has_alnum. rewrite !string_exists_app, Hd.
      by rewrite !orb_true_r. }
    rewrite Hal'. simpl negb. cbv iota.
    rewrite !string_exists_app, Hu, Hw, Hd.
    destruct (string_exists is_space v); [done|].
    cbn [orb negb]. rewrite !orb_true_r, !andb_true_r. f_equal.
    apply Z.leb_le.
    etrans; [exact Hp|].
    pose proof (alphabet_pos v Hal) as Hpos.
    apply Z.pow_le_mono; [|lia]. split; [lia|].
    rewrite !scan_chars_flags. unfold alphabet. simpl.
    rewrite !string_exists_app.
    destruct (string_exists isdigit u), (string_exists isdigit v),
      (string_exists isdigit w), (string_exists islower u),
      (string_exists islower v), (string_exists islower w),
      (string_exists isupper u), (string_exists isupper v),
      (string_exists isupper w); simpl; lia.
Qed.

Lemma is_csrf_token_extend_witness :
  is_csrf_token "foo" ("sid=" +:+ "a1b2c3d" +:+ ";") = Ok true.
Proof.
  apply (is_csrf_token_extend "foo" "sid=" "a1b2c3d" ";"); reflexivity.
Defined.

(** X7: the classifier looks at a value only through its length and
    through which of the four character classes occur in it: order and
    repetition of the characters make no difference. *)
Theorem is_csrf_token_classes_only (key v w : string) :
  String.length v = String.length w →
  string_exists isdigit v = string_exists isdigit w →
  string_exists islower v = string_exists islower w →
  string_exists isupper v = string_exists isupper w →
  string_exists is_space v = string_exists is_space w →
  is_csrf_token key v = is_csrf_token key w.
Proof.
  intros Hlen Hd Hl Hu Hs. rewrite !is_csrf_token_table.
  unfold has_alnum. rewrite !scan_chars_flags, Hlen, Hd, Hl, Hu, Hs.
  assert (String.eqb v "" = String.eqb w "") as ->; [|done].
  destruct v, w; simpl in *; (done || lia).
Qed.

Lemma is_csrf_token_classes_only_witness :
  is_csrf_token "foo" "abc12345XYZ" = is_csrf_token "foo" "ZYX54321cba".
Proof.
  apply (is_csrf_token_classes_only "foo" "abc12345XYZ" "ZYX54321cba");
    reflexivity.
Defined.

(** ** The suitability filter, all three checks *)

(** X8: the filter never raises, and it accepts a request exactly when the
    URL's domain occurs in the domain of some cookie of the jar, the
    request is not a GET under strict mode, and the request has a query
    string or at least one parameter. *)
Theorem _is_suitable_true_iff (E : Env) (self : csrf) (freq : FuzzableRequest) :
  (∃ b, (_is_suitable E self freq).2 = Ok b) ∧
  ((_is_suitable E self freq).2 = Ok true ↔
   (∃ cookie, cookie ∈ get_cookies E ∧
              substring_of (get_domain freq) (cookie_domain cookie)) ∧
   ¬ (get_method freq = "GET" ∧ _strict_mode self = true) ∧
   (has_query_string freq = true ∨ get_dc freq ≠ [])).
Proof.
  split.
  { destruct (_is_suitable_outcome E self freq) as [H|H]; rewrite H; eauto. }
  unfold _is_suitable.
  destruct (existsb _ (get_cookies E)) eqn:Hex; simpl negb; cbv iota.
  - apply existsb_exists in Hex as (cookie & Hin & Hsub).
    apply list_elem_of_In in Hin. apply str_in_spec in Hsub.
    destruct (String.eqb_spec (get_method freq) "GET") as [Hget|Hget];
      destruct (_strict_mode self) eqn:Hstrict; simpl andb; cbv iota;
      try (split; [done|]; by intros (_ & Hn & _); destruct Hn).
    all: destruct (has_query_string freq) eqn:Hqs; simpl negb; simpl andb;
      cbv iota; [split; [intros _|done]; split; [eauto|]; split;
                 [by intros [? ?]|by left]|].
    all: case_bool_decide as Hdc; simpl negb; cbv iota.
    all: try (split; [intros _|done]; split; [eauto|]; split;
              [by intros [? ?]|by right]).
    all: split; [done|]; intros (_ & _ & [?|?]); done.
  - split; [done|]. intros ((cookie & Hin & Hsub) & _).
    apply list_elem_of_In in Hin. apply str_in_spec in Hsub.
    assert (existsb (λ cookie, str_in (get_domain freq) (cookie_domain cookie))
              (get_cookies E) = true) as Htrue
      by (apply existsb_exists; eauto).
    congruence.
Qed.

(** X9: a plugin as [__init__] builds it is not in strict mode, so whether
    it audits a request does not depend on the request's method. *)
Theorem _is_suitable_init_any_method (E : Env) (freq freq' : FuzzableRequest) :
  get_domain freq = get_domain freq' →
  has_query_string freq = has_query_string freq' →
  get_dc freq = get_dc freq' →
  (_is_suitable E __init__ freq).2 = (_is_suitable E __init__ freq').2.
Proof.
  intros Hdom Hqs Hdc. unfold _is_suitable. rewrite Hdom, Hqs, Hdc.
  simpl _strict_mode. rewrite !andb_false_r.
  by repeat match goal with |- context [if ?b then _ else _] => destruct b end.
Qed.

Lemma _is_suitable_init_any_method_witness :
  (_is_suitable Examples.careless __init__ Examples.transfer).2
  = (_is_suitable Examples.careless __init__ Cases.transfer_get).2.
Proof.
  apply (_is_suitable_init_any_method Examples.careless Examples.transfer
           Cases.transfer_get); reflexivity.
Defined.

(** X10: when a request fails one of the three checks (no cookie's domain
    holds the URL's domain, GET under strict mode, neither query string nor
    parameters) the audit does nothing at all: it sends no probe, logs
    nothing, reports nothing and returns. *)
Theorem audit_unsuitable_silent (E : Env) (self : csrf)
    (freq : FuzzableRequest) (orig : HTTPResponse) :
  (∀ cookie, cookie ∈ get_cookies E →
     ¬ substring_of (get_domain freq) (cookie_domain cookie)) ∨
  (get_method freq = "GET" ∧ _strict_mode self = true) ∨
  (has_query_string freq = false ∧ get_dc freq = []) →
  audit E self freq orig = ([], Ok tt).
Proof.
  intros Hfail. apply audit_not_suitable. intros Hs.
  assert (Hex : existsb (λ cookie, str_in (get_domain freq)
                                     (cookie_domain cookie))
                  (get_cookies E) = true →
                ∃ cookie, cookie ∈ get_cookies E ∧
                  substring_of (get_domain freq) (cookie_domain cookie)).
  { intros Hex. apply existsb_exists in Hex as (cookie & Hin & Hsub).
    exists cookie. split; [by apply list_elem_of_In|by apply str_in_spec]. }
  unfold _is_suitable in Hs.
  destruct (existsb _ (get_cookies E)); simpl negb in Hs; cbv iota in Hs;
    [|done].
  destruct Hfail as [Hnone|[[Hget Hstrict]|[Hqs Hdc]]].
  - destruct (Hex eq_refl) as (cookie & Hin & Hsub). by apply (Hnone cookie).
  - rewrite Hget, Hstrict in Hs. done.
  - rewrite Hqs, Hdc in Hs.
    destruct (String.eqb (get_method freq) "GET" && _strict_mode self);
      done.
Qed.

Lemma audit_unsuitable_silent_witness :
  audit Examples.careless __init__ Cases.bare Examples.page = ([], Ok tt).
Proof.
  apply (audit_unsuitable_silent Examples.careless __init__ Cases.bare
           Examples.page).
  right. right. split; reflexivity.
Defined.

(** ** The token locator, when it returns *)

Lemma enumerate_from_values {A} (n : nat) (l : list A) (x : nat * A) :
  x ∈ enumerate_from n l → x.2 ∈ l.
Proof.
  revert n. induction l as [|y l IH]; intros n Hx; simpl in Hx.
  - by apply elem_of_nil in Hx.
  - apply elem_of_cons in Hx as [->|Hx]; [apply list_elem_of_here|].
    apply list_elem_of_further. by apply (IH (S n)).
Qed.

Lemma enumerate_from_app {A} (n : nat) (l1 l2 : list A) :
  enumerate_from n (l1 ++ l2)
  = enumerate_from n l1 ++ enumerate_from (n + length l1) l2.
Proof.
  revert n. induction l1 as [|y l1 IH]; intros n; simpl.
  - by rewrite Nat.add_0_r.
  - rewrite IH. do 3 f_equal. lia.
Qed.

(** A run of the inner loop that returns has rejected, without raising,
    every value before the one it accepted. *)
Lemma find_in_elements_rejected (freq : FuzzableRequest) (param_name : string)
    (n : nat) (values : list string)
    (result r : gmap string (gmap nat string)) (evs : list event) :
  find_in_elements freq param_name (enumerate_from n values) result
  = (evs, Ok r) →
  ∀ j w, values !! j = Some w →
    (∀ i v, first_accepted param_name (enumerate_from n values) = Some (i, v)
            → (n + j < i)%nat) →
    is_csrf_token param_name w = Ok false.
Proof.
  revert n. induction values as [|x values IH]; intros n Hrun j w Hw Hbefore;
    [done|].
  simpl enumerate_from in Hrun, Hbefore. rewrite find_in_elements_cons in Hrun.
  simpl first_accepted in Hbefore.
  destruct (is_csrf_token param_name x) as [[]|e] eqn:Hx; [| |done].
  - specialize (Hbefore n x eq_refl). lia.
  - destruct j as [|j]; simpl in Hw.
    + by injection Hw as <-.
    + apply (IH (S n) Hrun j w Hw). intros i v Hfirst.
      specialize (Hbefore i v Hfirst). lia.
Qed.

Lemma find_in_params_inner (freq : FuzzableRequest) (dc : DataContainer)
    (result tokens : gmap string (gmap nat string)) (evs : list event)
    (name : string) (values : list string) :
  find_in_params freq dc result = (evs, Ok tokens) →
  (name, values) ∈ dc →
  ∃ result' evs' r,
    find_in_elements freq name (enumerate values) result' = (evs', Ok r).
Proof.
  revert result evs. induction dc as [|[n vs] rest IH];
    intros result evs Hrun Hin; [by apply elem_of_nil in Hin|].
  simpl find_in_params in Hrun.
  apply bind_ok_inv in Hrun as (evs1 & r1 & evs2 & H1 & H2 & ->).
  apply elem_of_cons in Hin as [[= -> ->]|Hin]; [eauto|].
  by apply (IH r1 evs2).
Qed.

(** X11: what a returned token map holds.  With the names of the request
    distinct, a name is recorded exactly when one of its values is
    accepted; its record is the single pair of the index and the value of
    the first accepted value, that value is in the request at that index,
    and every value before it was rejected without raising. *)
Theorem _find_csrf_token_entry_iff (freq : FuzzableRequest)
    (evs : list event) (tokens : gmap string (gmap nat string))
    (name : string) (entry : gmap nat string) :
  NoDup (get_dc freq).*1 →
  _find_csrf_token freq = (evs, Ok tokens) →
  (tokens !! name = Some entry ↔
   ∃ values i v,
     (name, values) ∈ get_dc freq ∧ entry = {[ i := v ]} ∧
     values !! i = Some v ∧ is_csrf_token name v = Ok true ∧
     ∀ j w, (j < i)%nat → values !! j = Some w →
            is_csrf_token name w = Ok false).
Proof.
  intros Hnd Hrun.
  destruct (_find_csrf_token_first_match freq evs tokens Hnd Hrun)
    as (Hin & Hout & _).
  split.
  - intros Hentry.
    destruct (decide (name ∈ (get_dc freq).*1)) as [Hdc|Hdc];
      [|by rewrite Hout in Hentry].
    apply list_elem_of_fmap in Hdc as ([n values] & -> & Hitem). simpl in *.
    rewrite (Hin n values Hitem) in Hentry.
    destruct (first_accepted n (enumerate values)) as [[i v]|] eqn:Hfirst;
      [|done].
    injection Hentry as <-. exists values, i, v.
    pose proof Hfirst as Hspec.
    apply first_accepted_Some in Hspec as (k & -> & Hk & Hv & _).
    repeat split; try done.
    intros j w Hj Hw.
    destruct (find_in_params_inner freq _ _ _ _ n values Hrun Hitem)
      as (result' & evs' & r & Hinner).
    apply (find_in_elements_rejected freq n 0 values result' r evs' Hinner j w Hw).
    intros i' v' Hfirst'. unfold enumerate in Hfirst.
    rewrite Hfirst in Hfirst'. injection Hfirst' as <- <-. lia.
  - intros (values & i & v & Hitem & -> & Hi & Hv & Hbefore).
    rewrite (Hin name values Hitem).
    assert (first_accepted name (enumerate values) = Some (i, v)) as ->;
      [|done].
    apply first_accepted_Some. exists i. repeat split; try done.
    intros j w Hj Hw. by rewrite (Hbefore j w Hj Hw).
Qed.

Lemma _find_csrf_token_entry_iff_witness :
  ({[ "token" := {[ 0%nat := "abc12345XYZ" ]} ]}
     : gmap string (gmap nat string)) !! "token"
  = Some {[ 0%nat := "abc12345XYZ" ]} ↔
  ∃ values i v,
    ("token", values) ∈ get_dc Examples.transfer ∧
    ({[ 0%nat := "abc12345XYZ" ]} : gmap nat string) = {[ i := v ]} ∧
    values !! i = Some v ∧ is_csrf_token "token" v = Ok true ∧
    ∀ j w, (j < i)%nat → values !! j = Some w →
           is_csrf_token "token" w = Ok false.
Proof.
  apply (_find_csrf_token_entry_iff Examples.transfer
           [Debug (found_token_msg Examples.transfer "token" "abc12345XYZ")]).
  - apply (bool_decide_unpack _). vm_compute. exact I.
  - vm_compute. reflexivity.
Defined.

(** X12: the locator returns a token map, without raising, on every
    request in which each value has a digit or a letter, or is shorter
    than 4 characters, or stands under a well-known name. *)
Theorem _find_csrf_token_returns_on_alnum (freq : FuzzableRequest) :
  (∀ name values w, (name, values) ∈ get_dc freq → w ∈ values →
     has_alnum w = true ∨ (String.length w < 4)%nat ∨
     name ∈ COMMON_CSRF_NAMES) →
  ∃ evs tokens, _find_csrf_token freq = (evs, Ok tokens).
Proof.
  intros Hclean. apply _find_csrf_token_returns.
  intros name values w Hin Hw. rewrite is_csrf_token_table.
  destruct (Hclean name values w Hin Hw) as [Hal|[Hlen|Hkey]].
  - rewrite Hal. simpl negb. cbv iota.
    repeat match goal with |- context [if ?b then _ else _] => destruct b end;
      eauto.
  - apply Nat.ltb_lt in Hlen. rewrite Hlen.
    destruct (_ && _); eauto.
  - rewrite (bool_decide_eq_true_2 _ Hkey). simpl andb.
    destruct w as [|c w]; simpl; eauto.
Qed.

Lemma _find_csrf_token_returns_on_alnum_witness :
  ∃ evs tokens, _find_csrf_token Examples.transfer = (evs, Ok tokens).
Proof.
  apply (_find_csrf_token_returns_on_alnum Examples.transfer).
  intros name values w Hin Hw. left. simpl in Hin.
  apply elem_of_cons in Hin as [[= -> ->]|Hin].
  - apply list_elem_of_singleton in Hw as ->. reflexivity.
  - apply list_elem_of_singleton in Hin as [= -> ->].
    apply list_elem_of_singleton in Hw as ->. reflexivity.
Defined.

Lemma find_in_params_lines (freq : FuzzableRequest) (dc : DataContainer)
    (result tokens : gmap string (gmap nat string)) (evs : list event) :
  find_in_params freq dc result = (evs, Ok tokens) →
  evs = token_lines freq dc.
Proof.
  revert result evs. induction dc as [|[n vs] rest IH]; intros result evs Hrun.
  - simpl in Hrun. by injection Hrun as <- _.
  - simpl find_in_params in Hrun.
    apply bind_ok_inv in Hrun as (evs1 & r1 & evs2 & H1 & H2 & ->).
    apply find_in_elements_ok in H1. apply IH in H2 as ->.
    unfold token_lines. simpl omap.
    destruct (first_accepted n (enumerate vs)) as [[i v]|].
    + by destruct H1 as [_ ->].
    + by destruct H1 as [_ ->].
Qed.

Lemma find_in_params_size (freq : FuzzableRequest) (dc : DataContainer)
    (result tokens : gmap string (gmap nat string)) (evs : list event) :
  NoDup dc.*1 →
  (∀ name, name ∈ dc.*1 → result !! name = None) →
  find_in_params freq dc result = (evs, Ok tokens) →
  size tokens = (size result + length evs)%nat.
Proof.
  revert result evs.
  induction dc as [|[n vs] rest IH]; intros result evs Hnd Hfresh Hrun.
  - simpl in Hrun. injection Hrun as <- <-. simpl. lia.
  - simpl in Hnd. apply NoDup_cons in Hnd as [Hn Hnd].
    simpl find_in_params in Hrun.
    apply bind_ok_inv in Hrun as (evs1 & r1 & evs2 & H1 & H2 & ->).
    apply find_in_elements_ok in H1.
    assert (Hfresh_n : result !! n = None)
      by (apply Hfresh; simpl; apply list_elem_of_here).
    assert (Hr1 : size r1 = (size result + length evs1)%nat ∧
                  ∀ name, name ∈ rest.*1 → r1 !! name = None).
    { destruct (first_accepted n (enumerate vs)) as [[i v]|].
      - destruct H1 as [-> ->]. split.
        + rewrite map_size_insert_None by done. simpl. lia.
        + intros name Hin. rewrite lookup_insert_ne by (by intros ->).
          apply Hfresh. simpl. by apply list_elem_of_further.
      - destruct H1 as [-> ->]. split; [simpl; lia|].
        intros name Hin. apply Hfresh. simpl. by apply list_elem_of_further. }
    destruct Hr1 as [Hsize Hfresh1].
    rewrite (IH r1 evs2 Hnd Hfresh1 H2), Hsize, length_app. lia.
Qed.

(** X13: the locator only logs.  When it returns, its output is one
    "Found CSRF token" line for each parameter that has an accepted value,
    in the order of the parameters and naming the first accepted value;
    with distinct names there are as many lines as recorded parameters. *)
Theorem _find_csrf_token_lines (freq : FuzzableRequest)
    (evs : list event) (tokens : gmap string (gmap nat string)) :
  NoDup (get_dc freq).*1 →
  _find_csrf_token freq = (evs, Ok tokens) →
  evs = token_lines freq (get_dc freq) ∧
  length evs = size tokens ∧
  findings evs = [] ∧ sent evs = [].
Proof.
  intros Hnd Hrun. pose proof (_find_csrf_token_events freq) as Hdebug.
  rewrite Hrun in Hdebug. simpl in Hdebug.
  split; [by eapply find_in_params_lines|]. split.
  - unfold _find_csrf_token in Hrun.
    rewrite (find_in_params_size _ _ _ _ _ Hnd
               ltac:(intros; apply lookup_empty) Hrun).
    by rewrite map_size_empty.
  - split; [by apply findings_debug|by apply sent_debug].
Qed.

Lemma _find_csrf_token_lines_witness :
  [Debug (found_token_msg Examples.transfer "token" "abc12345XYZ")]
  = token_lines Examples.transfer (get_dc Examples.transfer).
Proof.
  apply (_find_csrf_token_lines Examples.transfer
           [Debug (found_token_msg Examples.transfer "token" "abc12345XYZ")]
           {[ "token" := {[ 0%nat := "abc12345XYZ" ]} ]}).
  - apply (bool_decide_unpack _). vm_compute. exact I.
  - vm_compute. reflexivity.
Defined.

Lemma find_in_elements_url (freq freq' : FuzzableRequest)
    (param_name : string) (elements : list (nat * string))
    (result : gmap string (gmap nat string)) :
  get_url freq = get_url freq' →
  find_in_elements freq param_name elements result
  = find_in_elements freq' param_name elements result.
Proof.
  intros Hurl. induction elements as [|[i v] rest IH]; [done|].
  rewrite !find_in_elements_cons. unfold found_token_msg. rewrite Hurl, IH.
  done.
Qed.

Lemma find_in_params_app (freq : FuzzableRequest) (dc1 dc2 : DataContainer)
    (result : gmap string (gmap nat string)) :
  find_in_params freq (dc1 ++ dc2) result =
  bind (find_in_params freq dc1 result) (λ r, find_in_params freq dc2 r).
Proof.
  revert result. induction dc1 as [|[n vs] rest IH]; intros result.
  - simpl. by destruct (find_in_params freq dc2 result).
  - simpl app. simpl find_in_params.
    destruct (find_in_elements freq n (enumerate vs) result)
      as [evs1 [r1|e]]; simpl; [|done].
    rewrite IH.
    destruct (find_in_params freq rest r1) as [evs2 [r2|e]]; simpl; [|done].
    destruct (find_in_params freq dc2 r2) as [evs3 r3]. by rewrite app_assoc.
Qed.

Lemma find_in_params_url (freq freq' : FuzzableRequest) (dc : DataContainer)
    (result : gmap string (gmap nat string)) :
  get_url freq = get_url freq' →
  find_in_params freq dc result = find_in_params freq' dc result.
Proof.
  intros Hurl. revert result. induction dc as [|[n vs] rest IH];
    intros result; [done|].
  simpl find_in_params. rewrite (find_in_elements_url freq freq') by done.
  destruct (find_in_elements freq' n (enumerate vs) result)
    as [evs1 [r1|e]]; simpl; [|done]. by rewrite IH.
Qed.

(** X14: first match wins, and the scan of a parameter stops there.  The
    values that follow the first accepted value of a parameter have no
    influence on what the locator returns or logs, not even values on
    which the classifier would raise. *)
Theorem _find_csrf_token_ignores_later_values (freq freq' : FuzzableRequest)
    (dc1 dc2 : DataContainer) (name : string) (pre : list string)
    (v : string) (post post' : list string) :
  get_url freq = get_url freq' →
  get_dc freq = dc1 ++ (name, pre ++ v :: post) :: dc2 →
  get_dc freq' = dc1 ++ (name, pre ++ v :: post') :: dc2 →
  (∀ w, w ∈ pre → is_csrf_token name w = Ok false) →
  is_csrf_token name v = Ok true →
  _find_csrf_token freq = _find_csrf_token freq'.
Proof.
  intros Hurl Hdc Hdc' Hpre Hv. unfold _find_csrf_token.
  rewrite Hdc, Hdc', !find_in_params_app.
  rewrite (find_in_params_url freq freq') by done.
  destruct (find_in_params freq' dc1 ∅) as [evs1 [r1|e]]; [|done].
  rewrite !(bind_ok _ _ _ _ eq_refl). simpl find_in_params.
  assert (Hinner : ∀ fr tail,
            find_in_elements fr name (enumerate (pre ++ v :: tail)) r1 =
            ([Debug (found_token_msg fr name v)],
             Ok (<[name := <[length pre := v]> (default ∅ (r1 !! name))]> r1))).
  { intros fr tail. unfold enumerate. rewrite enumerate_from_app. simpl.
    apply find_in_elements_first_match; [|done].
    intros x Hx. apply Hpre. by apply (enumerate_from_values 0). }
  rewrite !Hinner, !(bind_ok _ _ _ _ eq_refl).
  unfold found_token_msg. rewrite Hurl.
  by rewrite (find_in_params_url freq freq').
Qed.

Lemma _find_csrf_token_ignores_later_values_witness :
  _find_csrf_token Cases.repeated = _find_csrf_token Cases.single.
Proof.
  apply (_find_csrf_token_ignores_later_values Cases.repeated Cases.single
           [] [] "nonce" [] "12345678901" ["----"] []); try reflexivity.
  intros w Hw. by apply elem_of_nil in Hw.
Defined.

(** ** The token validator, for any mutants *)

Lemma check_mutants_prefix (E : Env) (self : csrf) (mutants : list Mutant)
    (orig : HTTPResponse) :
  ∃ k, (check_mutants E self mutants orig).1 = token_probes (take k mutants).
Proof.
  induction mutants as [|m rest [k IH]]; [by exists 0%nat|].
  rewrite check_mutants_cons.
  destruct (send_mutant E m (Some false)) as [r|e]; [|by exists 1%nat].
  destruct (_is_resp_equal E self orig r); [|by exists 1%nat].
  exists (S k). simpl. by rewrite IH.
Qed.

Lemma check_mutants_false (E : Env) (self : csrf) (mutants : list Mutant)
    (orig : HTTPResponse) :
  (check_mutants E self mutants orig).2 = Ok false →
  (check_mutants E self mutants orig).1 = token_probes mutants ∧
  ∀ m, m ∈ mutants →
    ∃ r, send_mutant E m (Some false) = Ok r ∧
         _is_resp_equal E self orig r = true.
Proof.
  induction mutants as [|m rest IH]; intros Hres.
  - split; [done|]. intros m Hm. by apply elem_of_nil in Hm.
  - rewrite check_mutants_cons in Hres |- *.
    destruct (send_mutant E m (Some false)) as [r|e] eqn:Hsend; [|done].
    destruct (_is_resp_equal E self orig r) eqn:Heq; [|done].
    simpl in Hres. destruct (IH Hres) as [IHev IHall]. split.
    + simpl. by rewrite IHev.
    + intros m' Hm'. apply elem_of_cons in Hm' as [->|Hm']; [eauto|].
      by apply IHall.
Qed.

Lemma check_mutants_first_difference (E : Env) (self : csrf)
    (pre post : list Mutant) (m : Mutant) (orig r : HTTPResponse) :
  (∀ m', m' ∈ pre →
     ∃ r', send_mutant E m' (Some false) = Ok r' ∧
           _is_resp_equal E self orig r' = true) →
  send_mutant E m (Some false) = Ok r →
  _is_resp_equal E self orig r = false →
  check_mutants E self (pre ++ m :: post) orig
  = (token_probes (pre ++ [m]), Ok true).
Proof.
  intros Hpre Hsend Hdiff. induction pre as [|m0 pre IH].
  - simpl app. by rewrite check_mutants_cons, Hsend, Hdiff.
  - simpl app. rewrite check_mutants_cons.
    destruct (Hpre m0) as (r0 & -> & ->); [apply list_elem_of_here|].
    rewrite IH; [done|]. intros m' Hm'. apply Hpre.
    by apply list_elem_of_further.
Qed.

Lemma check_mutants_raise (E : Env) (self : csrf) (mutants : list Mutant)
    (orig : HTTPResponse) (e : exn) :
  (check_mutants E self mutants orig).2 = Raise e →
  ∃ m, last (check_mutants E self mutants orig).1
       = Some (SendMutant m (Some false)) ∧
       send_mutant E m (Some false) = Raise e.
Proof.
  induction mutants as [|m rest IH]; [done|].
  rewrite check_mutants_cons.
  destruct (send_mutant E m (Some false)) as [r|e0] eqn:Hsend.
  - destruct (_is_resp_equal E self orig r); [|done]. simpl.
    intros Hres. destruct (IH Hres) as (m' & Hlast & Hfail).
    exists m'. split; [|done].
    destruct (check_mutants E self rest orig).1; [done|].
    by rewrite last_cons, Hlast.
  - simpl. intros [= ->]. by exists m.
Qed.

Lemma sent_token_probes (mutants : list Mutant) :
  sent (token_probes mutants) = (λ m, (m, Some false)) <$> mutants.
Proof.
  unfold token_probes. induction mutants as [|m l IH]; [done|].
  rewrite !fmap_cons, sent_cons_send. by rewrite IH.
Qed.

(** X15: the validator sends the mutants in order and stops at the first
    one whose response differs from the original: it answers [True], and
    the mutants after that one are not sent. *)
Theorem _is_token_checked_stops_at_first_difference (E : Env) (self : csrf)
    (freq : FuzzableRequest) (token : gmap string (gmap nat string))
    (orig r : HTTPResponse) (pre post : list Mutant) (m : Mutant) :
  create_mutants E freq ["123"] false (keys token) = pre ++ m :: post →
  (∀ m', m' ∈ pre →
     ∃ r', send_mutant E m' (Some false) = Ok r' ∧
           _is_resp_equal E self orig r' = true) →
  send_mutant E m (Some false) = Ok r →
  _is_resp_equal E self orig r = false →
  _is_token_checked E self freq token orig
  = (Debug (testing_msg freq) :: token_probes (pre ++ [m]), Ok true) ∧
  sent (_is_token_checked E self freq token orig).1
  = (λ m', (m', Some false)) <$> (pre ++ [m]).
Proof.
  intros Hmutants Hpre Hsend Hdiff.
  assert (Hrun : _is_token_checked E self freq token orig
            = (Debug (testing_msg freq) :: token_probes (pre ++ [m]), Ok true)).
  { rewrite _is_token_checked_eq, Hmutants.
    by rewrite (check_mutants_first_difference E self pre post m orig r). }
  rewrite Hrun. split; [done|]. simpl fst.
  by rewrite sent_cons_debug, sent_token_probes.
Qed.

Lemma _is_token_checked_stops_at_first_difference_witness :
  _is_token_checked Examples.token_checking __init__ Examples.transfer
    {[ "token" := {[ 0%nat := "abc12345XYZ" ]} ]} Examples.page
  = (Debug (testing_msg Examples.transfer)
       :: token_probes
            ([] ++ [ {| mutant_kind := DcMutant;
                        mutant_freq := Examples.transfer;
                        mutant_var := "token"; mutant_index := 0;
                        mutant_original_value := "abc12345XYZ";
                        mutant_mod_value := "123" |} ]),
     Ok true).
Proof.
  apply (_is_token_checked_stops_at_first_difference Examples.token_checking
           __init__ Examples.transfer _ Examples.page Examples.forbidden
           [] []).
  - vm_compute. reflexivity.
  - intros m' Hm'. by apply elem_of_nil in Hm'.
  - reflexivity.
  - reflexivity.
Defined.

(** X16: whatever the server does, the validator first logs its "Testing"
    line and then sends some first mutants of the list [create_mutants]
    returned, in order, each once and each with [analyze=False]; it
    reports nothing to the knowledge base. *)
Theorem _is_token_checked_trace (E : Env) (self : csrf)
    (freq : FuzzableRequest) (token : gmap string (gmap nat string))
    (orig : HTTPResponse) :
  ∃ k,
    (_is_token_checked E self freq token orig).1
    = Debug (testing_msg freq)
        :: token_probes
             (take k (create_mutants E freq ["123"] false (keys token))) ∧
    findings (_is_token_checked E self freq token orig).1 = [].
Proof.
  destruct (check_mutants_prefix E self
              (create_mutants E freq ["123"] false (keys token)) orig)
    as [k Hk].
  exists k. rewrite _is_token_checked_eq. simpl fst. rewrite Hk.
  split; [done|]. apply findings_sends.
Qed.

(** X17: the validator answers [False] only when it has sent every mutant
    and each was answered with a response equal to the original. *)
Theorem _is_token_checked_false_only_if (E : Env) (self : csrf)
    (freq : FuzzableRequest) (token : gmap string (gmap nat string))
    (orig : HTTPResponse) :
  (_is_token_checked E self freq token orig).2 = Ok false →
  (_is_token_checked E self freq token orig).1
  = Debug (testing_msg freq)
      :: token_probes (create_mutants E freq ["123"] false (keys token)) ∧
  ∀ m, m ∈ create_mutants E freq ["123"] false (keys token) →
    ∃ r, send_mutant E m (Some false) = Ok r ∧
         _is_resp_equal E self orig r = true.
Proof.
  rewrite _is_token_checked_eq. simpl. intros Hres.
  destruct (check_mutants_false E self _ orig Hres) as [Hev Hall].
  by rewrite Hev.
Qed.

Lemma _is_token_checked_false_only_if_witness :
  (_is_token_checked Examples.careless __init__ Examples.transfer
     {[ "token" := {[ 0%nat := "abc12345XYZ" ]} ]} Examples.page).1
  = Debug (testing_msg Examples.transfer)
      :: token_probes
           (create_mutants Examples.careless Examples.transfer ["123"] false
              (keys {[ "token" := {[ 0%nat := "abc12345XYZ" ]} ]})).
Proof.
  apply (_is_token_checked_false_only_if Examples.careless __init__
           Examples.transfer _ Examples.page).
  vm_compute. reflexivity.
Defined.

(** ** The orchestrator, all runs *)

Lemma is_csrf_token_raise_value (key value : string) (e : exn) :
  is_csrf_token key value = Raise e → e = ValueError "math domain error".
Proof.
  rewrite is_csrf_token_table.
  repeat match goal with |- context [if ?b then _ else _] => destruct b end;
    try done. by intros [= <-].
Qed.

Lemma find_in_params_raise (freq : FuzzableRequest) (dc : DataContainer)
    (result : gmap string (gmap nat string)) (evs : list event) (e : exn) :
  find_in_params freq dc result = (evs, Raise e) →
  e = ValueError "math domain error".
Proof.
  revert result evs. induction dc as [|[n vs] rest IH]; intros result evs;
    [done|].
  simpl find_in_params.
  destruct (find_in_elements freq n (enumerate vs) result)
    as [evs1 [r1|e1]] eqn:H1.
  - rewrite (bind_ok _ _ _ _ eq_refl).
    destruct (find_in_params freq rest r1) as [evs2 res] eqn:H2. simpl.
    intros [= _ ->]. by eapply IH.
  - rewrite (bind_raise _ _ _ _ eq_refl). intros [= _ <-].
    clear IH. revert H1. generalize (enumerate vs).
    intros elements. induction elements as [|[i v] els IHe]; [done|].
    rewrite find_in_elements_cons.
    destruct (is_csrf_token n v) as [[]|e0] eqn:Hv; [done|exact IHe|].
    intros [= _ <-]. by eapply is_csrf_token_raise_value.
Qed.

Lemma findings_nil : findings [] = [].
Proof. done. Qed.
Lemma findings_cons_debug (msg : string) (evs : list event) :
  findings (Debug msg :: evs) = findings evs.
Proof. done. Qed.
Lemma findings_cons_send (m : Mutant) (a : option bool) (evs : list event) :
  findings (SendMutant m a :: evs) = findings evs.
Proof. done. Qed.
Lemma findings_cons_kb (loc : string) (v : Vuln) (evs : list event) :
  findings (KbAppendUniq loc v :: evs) = v :: findings evs.
Proof. done. Qed.
Lemma findings_token_probes (mutants : list Mutant) :
  findings (token_probes mutants) = [].
Proof. apply findings_sends. Qed.

#[local] Hint Rewrite findings_app findings_nil findings_cons_debug
  findings_cons_send findings_cons_kb findings_token_probes : trace.

Lemma _is_token_checked_findings (E : Env) (self : csrf)
    (freq : FuzzableRequest) (token : gmap string (gmap nat string))
    (orig : HTTPResponse) :
  findings (_is_token_checked E self freq token orig).1 = [].
Proof.
  rewrite _is_token_checked_eq. simpl fst. rewrite findings_cons_debug.
  apply check_mutants_findings.
Qed.

(** X18: token-protected requests are not reported.  On a suitable request
    whose Referer probe is answered like the original, when the locator
    returns tokens and some token probe, all earlier ones being answered
    like the original, is answered differently, the audit ends normally
    with the "Token ... is exist and checked" line and reports nothing. *)
Theorem audit_token_checked (E : Env) (self : csrf) (freq : FuzzableRequest)
    (orig r r' : HTTPResponse) (tokens : gmap string (gmap nat string))
    (pre post : list Mutant) (m : Mutant) :
  (_is_suitable E self freq).2 = Ok true →
  send_mutant E (referer_probe freq) None = Ok r →
  _is_resp_equal E self orig r = true →
  (_find_csrf_token freq).2 = Ok tokens →
  tokens ≠ ∅ →
  create_mutants E freq ["123"] false (keys tokens) = pre ++ m :: post →
  (∀ m', m' ∈ pre →
     ∃ r'', send_mutant E m' (Some false) = Ok r'' ∧
            _is_resp_equal E self orig r'' = true) →
  send_mutant E m (Some false) = Ok r' →
  _is_resp_equal E self orig r' = false →
  (audit E self freq orig).2 = Ok tt ∧
  findings (audit E self freq orig).1 = [] ∧
  last (audit E self freq orig).1 = Some (Debug (token_checked_msg freq)).
Proof.
  intros Hs Hsend Heq Hloc Hne Hmutants Hpre Hsend' Hdiff.
  rewrite audit_suitable by done. cbv zeta. rewrite Hsend, Heq.
  pose proof (_find_csrf_token_events freq) as Hdebug.
  destruct (_find_csrf_token freq) as [evs [tokens'|e]]; [|done].
  simpl in Hloc, Hdebug. injection Hloc as ->.
  rewrite (bool_decide_eq_true_2 _ Hne).
  rewrite _is_token_checked_eq, Hmutants.
  rewrite (check_mutants_first_difference E self pre post m orig r')
    by done.
  simpl snd. simpl fst. cbv iota. split; [done|]. split.
  - autorewrite with trace. by rewrite (findings_debug evs Hdebug).
  - change (last ([Debug (suitable_msg freq);
                   SendMutant (referer_probe freq) None]
                  ++ evs ++ (Debug (testing_msg freq)
                               :: token_probes (pre ++ [m]))
                  ++ [Debug (token_checked_msg freq)])
            = Some (Debug (token_checked_msg freq))).
    by rewrite !last_app.
Qed.

Lemma audit_token_checked_witness :
  (audit Examples.token_checking __init__ Examples.transfer Examples.page).2
  = Ok tt ∧
  findings
    (audit Examples.token_checking __init__ Examples.transfer Examples.page).1
  = [] ∧
  last (audit Examples.token_checking __init__ Examples.transfer
          Examples.page).1
  = Some (Debug (token_checked_msg Examples.transfer)).
Proof.
  apply (audit_token_checked Examples.token_checking __init__
           Examples.transfer Examples.page Examples.page Examples.forbidden
           {[ "token" := {[ 0%nat := "abc12345XYZ" ]} ]} [] []
           {| mutant_kind := DcMutant; mutant_freq := Examples.transfer;
              mutant_var := "token"; mutant_index := 0;
              mutant_original_value := "abc12345XYZ";
              mutant_mod_value := "123" |}).
  - reflexivity.
  - reflexivity.
  - reflexivity.
  - vm_compute. reflexivity.
  - apply (bool_decide_unpack _). vm_compute. exact I.
  - vm_compute. reflexivity.
  - intros m' Hm'. by apply elem_of_nil in Hm'.
  - reflexivity.
  - reflexivity.
Defined.

(** X19: an audit reports at most one finding, and a finding it reports is
    the CSRF finding of severity HIGH for the audited request and the
    identifier of the original response. *)
Theorem audit_at_most_one_finding (E : Env) (self : csrf)
    (freq : FuzzableRequest) (orig : HTTPResponse) :
  (findings (audit E self freq orig).1 = [] ∨
   findings (audit E self freq orig).1 = [csrf_finding E freq orig]) ∧
  ∀ v, v ∈ findings (audit E self freq orig).1 →
    vuln_severity v = HIGH ∧ vuln_freq v = freq ∧
    vuln_response_id v = response_id orig ∧
    vuln_plugin_name v = get_name E.
Proof.
  assert (Hcases : findings (audit E self freq orig).1 = [] ∨
            findings (audit E self freq orig).1 = [csrf_finding E freq orig]).
  { destruct (_is_suitable_outcome E self freq) as [Hs|Hs].
    { rewrite audit_not_suitable by (by rewrite Hs). by left. }
    rewrite audit_suitable by (by rewrite Hs). cbv zeta.
    destruct (send_mutant E (referer_probe freq) None) as [r|e];
      [|by left].
    destruct (_is_resp_equal E self orig r); [|by left].
    pose proof (_find_csrf_token_events freq) as Hdebug.
    destruct (_find_csrf_token freq) as [evs [tokens|e]]; simpl in Hdebug;
      apply findings_debug in Hdebug.
    - case_bool_decide.
      + pose proof (_is_token_checked_findings E self freq tokens orig)
          as Hfind.
        destruct (_is_token_checked E self freq tokens orig) as [pevs [[]|e]];
          simpl in Hfind; simpl fst; simpl snd; cbv iota.
        * left. autorewrite with trace. by rewrite Hdebug, Hfind.
        * right. autorewrite with trace. by rewrite Hdebug, Hfind.
        * left. autorewrite with trace. by rewrite Hdebug, Hfind.
      + right. simpl fst. autorewrite with trace. by rewrite Hdebug.
    - left. simpl fst. autorewrite with trace. exact Hdebug. }
  split; [exact Hcases|].
  intros v Hv. destruct Hcases as [Hc|Hc]; rewrite Hc in Hv.
  - by apply elem_of_nil in Hv.
  - by apply list_elem_of_singleton in Hv as ->.
Qed.

(** X20: a finding is reported only for an undefended request.  When an
    audit reports a finding, the request passed the suitability filter, the
    Referer probe was answered with a response equal to the original, the
    locator returned, and either it found no token or every token mutant
    was sent and answered with a response equal to the original; the audit
    then ended normally. *)
Theorem audit_finding_only_if (E : Env) (self : csrf)
    (freq : FuzzableRequest) (orig : HTTPResponse) :
  findings (audit E self freq orig).1 ≠ [] →
  (_is_suitable E self freq).2 = Ok true ∧
  (∃ r, send_mutant E (referer_probe freq) None = Ok r ∧
        _is_resp_equal E self orig r = true) ∧
  (∃ tokens, (_find_csrf_token freq).2 = Ok tokens ∧
     (tokens = ∅ ∨
      ∀ m, m ∈ create_mutants E freq ["123"] false (keys tokens) →
        ∃ r', send_mutant E m (Some false) = Ok r' ∧
              _is_resp_equal E self orig r' = true)) ∧
  (audit E self freq orig).2 = Ok tt.
Proof.
  intros Hfind.
  destruct (_is_suitable_outcome E self freq) as [Hs|Hs].
  { rewrite audit_not_suitable in Hfind by (by rewrite Hs). done. }
  assert (Hs' : (_is_suitable E self freq).2 = Ok true) by (by rewrite Hs).
  split; [done|].
  rewrite audit_suitable in Hfind |- * by done. cbv zeta in Hfind |- *.
  destruct (send_mutant E (referer_probe freq) None) as [r|e]; [|done].
  destruct (_is_resp_equal E self orig r) eqn:Heq; [|done].
  split; [by exists r|].
  pose proof (_find_csrf_token_events freq) as Hdebug.
  destruct (_find_csrf_token freq) as [evs [tokens|e]]; simpl in Hdebug;
    apply findings_debug in Hdebug.
  - case_bool_decide as Hne.
    + pose proof (_is_token_checked_findings E self freq tokens orig) as Hf.
      pose proof (_is_token_checked_eq E self freq tokens orig) as Hrun.
      destruct (_is_token_checked E self freq tokens orig)
        as [pevs [[]|e]] eqn:Hprobe;
        simpl in Hf; simpl fst in Hfind; simpl snd in Hfind;
        cbv iota in Hfind; autorewrite with trace in Hfind;
        rewrite ?Hdebug, ?Hf in Hfind; try done.
      simpl snd. cbv iota. split; [|done]. exists tokens.
      split; [done|]. right.
      assert (Hres : (check_mutants E self
                        (create_mutants E freq ["123"] false (keys tokens))
                        orig).2 = Ok false).
      { by injection Hrun as _ <-. }
      by destruct (check_mutants_false E self _ orig Hres).
    + split; [|done]. exists tokens. split; [done|]. left.
      destruct (decide (tokens = ∅)); [done|]. by destruct Hne.
  - simpl fst in Hfind. autorewrite with trace in Hfind. by rewrite Hdebug in Hfind.
Qed.

Lemma audit_finding_only_if_witness :
  (_is_suitable Examples.careless __init__ Examples.transfer).2 = Ok true ∧
  (audit Examples.careless __init__ Examples.transfer Examples.page).2 = Ok tt.
Proof.
  destruct (audit_finding_only_if Examples.careless __init__
              Examples.transfer Examples.page) as (H1 & _ & _ & H2).
  - vm_compute. discriminate.
  - exact (conj H1 H2).
Defined.

(** X21: how an audit can fail.  When an audit ends with an exception it
    has reported no finding, and the exception is either the one raised by
    the send of the last probe it made, or the [ValueError] of the
    classifier's logarithm raised inside the locator. *)
Theorem audit_raise_cases (E : Env) (self : csrf) (freq : FuzzableRequest)
    (orig : HTTPResponse) (e : exn) :
  (audit E self freq orig).2 = Raise e →
  findings (audit E self freq orig).1 = [] ∧
  ((∃ m a, last (audit E self freq orig).1 = Some (SendMutant m a) ∧
           send_mutant E m a = Raise e) ∨
   (e = ValueError "math domain error" ∧
    (_find_csrf_token freq).2 = Raise e)).
Proof.
  intros Hraise.
  destruct (_is_suitable_outcome E self freq) as [Hs|Hs].
  { rewrite audit_not_suitable in Hraise by (by rewrite Hs). done. }
  rewrite audit_suitable in Hraise |- * by (by rewrite Hs).
  cbv zeta in Hraise |- *.
  destruct (send_mutant E (referer_probe freq) None) as [r|e0] eqn:Hsend.
  - destruct (_is_resp_equal E self orig r); [|done].
    pose proof (_find_csrf_token_events freq) as Hdebug.
    destruct (_find_csrf_token freq) as [evs [tokens|e1]] eqn:Hloc;
      simpl in Hdebug; apply findings_debug in Hdebug.
    + case_bool_decide as Hne; [|done].
      pose proof (_is_token_checked_findings E self freq tokens orig) as Hf.
      pose proof (_is_token_checked_eq E self freq tokens orig) as Hrun.
      destruct (_is_token_checked E self freq tokens orig)
        as [pevs [[]|e1]] eqn:Hprobe; [done|done|].
      simpl in Hraise, Hf |- *. injection Hraise as ->. split.
      * autorewrite with trace. by rewrite Hdebug, Hf.
      * left. injection Hrun as Hpevs Hres. symmetry in Hres.
        destruct (check_mutants_raise E self _ orig e Hres)
          as (m & Hlast & Hfail).
        exists m, (Some false). split; [|done].
        change (last ([Debug (suitable_msg freq);
                       SendMutant (referer_probe freq) None]
                      ++ evs ++ pevs)
                = Some (SendMutant m (Some false))).
        rewrite !last_app, Hpevs.
        destruct (check_mutants E self
                    (create_mutants E freq ["123"] false (keys tokens))
                    orig).1 as [|ev l]; [done|].
        by rewrite last_cons, Hlast.
    + simpl in Hraise |- *. injection Hraise as ->. split.
      * autorewrite with trace. exact Hdebug.
      * right. split; [|done]. unfold _find_csrf_token in Hloc.
        by eapply find_in_params_raise.
  - simpl in Hraise |- *. injection Hraise as ->.
    split; [done|]. left. by exists (referer_probe freq), None.
Qed.

Lemma audit_raise_cases_witness :
  findings (audit Examples.careless __init__ Examples.dashes Examples.page).1
  = [].
Proof.
  apply (audit_raise_cases Examples.careless __init__ Examples.dashes
           Examples.page (ValueError "math domain error")).
  vm_compute. reflexivity.
Defined.

(** X22: the probes of an audit and their order.  An audit sends nothing,
    or the Referer probe alone, or the Referer probe followed by some
    first mutants of the list [create_mutants] returned for the located
    tokens, in order, each sent once with [analyze=False].  No token
    mutant is sent before the Referer probe has been answered. *)
Theorem audit_sent_order (E : Env) (self : csrf) (freq : FuzzableRequest)
    (orig : HTTPResponse) :
  sent (audit E self freq orig).1 = [] ∨
  sent (audit E self freq orig).1 = [(referer_probe freq, None)] ∨
  ∃ r tokens k,
    send_mutant E (referer_probe freq) None = Ok r ∧
    _is_resp_equal E self orig r = true ∧
    (_find_csrf_token freq).2 = Ok tokens ∧ tokens ≠ ∅ ∧
    sent (audit E self freq orig).1
    = (referer_probe freq, None)
        :: ((λ m, (m, Some false))
              <$> take k (create_mutants E freq ["123"] false (keys tokens))).
Proof.
  destruct (_is_suitable_outcome E self freq) as [Hs|Hs].
  { left. by rewrite audit_not_suitable by (by rewrite Hs). }
  right. rewrite audit_suitable by (by rewrite Hs). cbv zeta.
  destruct (send_mutant E (referer_probe freq) None) as [r|e0] eqn:Hsend;
    [|by left].
  destruct (_is_resp_equal E self orig r) eqn:Heq; [|by left].
  pose proof (_find_csrf_token_events freq) as Hdebug.
  destruct (_find_csrf_token freq) as [evs [tokens|e1]] eqn:Hloc;
    simpl in Hdebug; apply sent_debug in Hdebug.
  - case_bool_decide as Hne.
    + right. exists r, tokens.
      destruct (check_mutants_prefix E self
                  (create_mutants E freq ["123"] false (keys tokens)) orig)
        as [k Hk].
      exists k. repeat split; try done.
      rewrite _is_token_checked_eq. simpl fst. simpl snd. rewrite Hk.
      destruct (check_mutants E self _ orig).2 as [[]|e]; simpl fst;
        autorewrite with trace;
        by rewrite Hdebug, sent_token_probes, ?app_nil_r.
    + left. simpl fst. autorewrite with trace. by rewrite Hdebug.
  - left. simpl fst. autorewrite with trace. by rewrite Hdebug.
Qed.

(** X23: a Referer probe answered with another status code than the
    original settles the audit, whatever the bodies are and whatever the
    body comparison would say: the origin counts as checked, no token
    probe is sent and nothing is reported. *)
Theorem audit_status_code_suppresses (E : Env) (self : csrf)
    (freq : FuzzableRequest) (orig r : HTTPResponse) :
  (_is_suitable E self freq).2 = Ok true →
  send_mutant E (referer_probe freq) None = Ok r →
  get_code r ≠ get_code orig →
  (_is_origin_checked E self freq orig).2 = Ok true ∧
  (audit E self freq orig).2 = Ok tt ∧
  findings (audit E self freq orig).1 = [] ∧
  sent (audit E self freq orig).1 = [(referer_probe freq, None)].
Proof.
  intros Hs Hsend Hcode.
  assert (Hdiff : _is_resp_equal E self orig r = false).
  { unfold _is_resp_equal.
    destruct (Z.eqb_spec (get_code orig) (get_code r)); [congruence|done]. }
  split.
  - unfold referer_probe in Hsend.
    rewrite (_is_origin_checked_ok E self freq orig r Hsend). simpl.
    by rewrite Hdiff.
  - rewrite audit_suitable by done. cbv zeta. by rewrite Hsend, Hdiff.
Qed.

Lemma audit_status_code_suppresses_witness :
  (_is_origin_checked Cases.refusing __init__ Examples.transfer
     Examples.page).2 = Ok true ∧
  (audit Cases.refusing __init__ Examples.transfer Examples.page).2 = Ok tt ∧
  findings (audit Cases.refusing __init__ Examples.transfer Examples.page).1
  = [] ∧
  sent (audit Cases.refusing __init__ Examples.transfer Examples.page).1
  = [(referer_probe Examples.transfer, None)].
Proof.
  apply (audit_status_code_suppresses Cases.refusing __init__
           Examples.transfer Examples.page Examples.forbidden).
  - reflexivity.
  - reflexivity.
  - discriminate.
Defined.
